(** * type-picker: a shallow embedding of [src/picker.ts] and [src/cli.ts]

    The query-resolution and fact-aggregation engine of the [tsp] tool,
    embedded function by function.  The TypeScript compiler (the
    "oracle") and the JavaScript runtime are external to the repository:
    their data (syntax trees, types, symbols) is passed in as records,
    and the few runtime functions the code relies on ([RegExp.exec], the
    scanner's line map, [String.prototype.trim]) are modelled next to
    the function that uses them. *)

From Stdlib Require Import ZArith NArith Lia List Ascii String DecimalString.
From stdpp Require Import base tactics option list numbers sorting gmap.

Local Open Scope Z_scope.

(** ** JavaScript values *)

(** A JavaScript string is a sequence of UTF-16 code units.  Numbers
    are modelled by the integers: offsets and lengths in [nat], values
    supplied by the caller or held by enumerations in [Z]; NaN, the
    infinities and fractions are outside the model.  A number is a
    double: the integers up to [2^53] in absolute value (the safe
    integers) are all numbers and arithmetic on them is exact; beyond,
    a result is rounded ([roundToDouble]). *)
Definition jsstring := list N.

(** ASCII literals of the source, as code units. *)
Definition str (s : string) : jsstring :=
  map N_of_ascii (list_ascii_of_string s).

(** [`${n}`] for a safe integer [n] ([|n| <= 2^53]): its decimal
    digits, after a minus sign when it is negative.  Beyond the safe
    integers the runtime prints the shortest digits that read back as
    the same double, and an exponent from [10^21]; this function does
    not render those, and the statements that read a number in a message
    bound it. *)
Definition showNumber (n : Z) : jsstring :=
  str (NilZero.string_of_int (Z.to_int n)).

(** [a.includes(b)]: [b] occurs in [a] as a contiguous block. *)
Fixpoint startsWith (p s : jsstring) : bool :=
  match p, s with
  | [], _ => true
  | _ :: _, [] => false
  | a :: p', b :: s' => (a =? b)%N && startsWith p' s'
  end.

Fixpoint includes (s p : jsstring) : bool :=
  startsWith p s ||
  match s with
  | [] => false
  | _ :: s' => includes s' p
  end.

(** The order of [Array.prototype.sort] without a comparator: strings
    compared code unit by code unit, a proper prefix first. *)
Fixpoint str_leb (a b : jsstring) : bool :=
  match a, b with
  | [], _ => true
  | _ :: _, [] => false
  | x :: a', y :: b' =>
      match (x ?= y)%N with
      | Lt => true
      | Gt => false
      | Eq => str_leb a' b'
      end
  end.

Definition str_le (a b : jsstring) : Prop := str_leb a b = true.

Global Instance str_le_dec a b : Decision (str_le a b).
Proof. unfold str_le. apply _. Defined.

(** Values found in an enumeration object: TypeScript numeric enums hold
    name -> number entries and the reverse number -> name entries. *)
Inductive JsValue :=
| JNumber (n : Z)
| JString (s : jsstring)
| JBoolean (b : bool)
| JUndefined.

(** Outcome of a call that may throw. *)
Inductive Result (A : Type) :=
| Ok (a : A)
| Throw (message : jsstring).
Arguments Ok {A} a.
Arguments Throw {A} message.

Global Instance Result_ret : MRet Result := fun A a => Ok a.
Global Instance Result_bind : MBind Result := fun A B k r =>
  match r with
  | Ok a => k a
  | Throw m => Throw m
  end.

(** ** 32-bit integer operators *)

(** [ToInt32]: the signed 32-bit reading of an integer-valued number. *)
Definition toInt32 (z : Z) : Z :=
  let int32bit := z mod 2 ^ 32 in
  if 2 ^ 31 <=? int32bit then int32bit - 2 ^ 32 else int32bit.

(** [a & b]. *)
Definition bitand (a b : Z) : Z := Z.land (toInt32 a) (toInt32 b).

(** [a | b]. *)
Definition bitor (a b : Z) : Z := Z.lor (toInt32 a) (toInt32 b).

(** The double nearest to an integer, ties to the even significand:
    the integer itself up to [2^53], and beyond the integer rounded to
    53 significant bits (no number of the code reaches the largest
    double). *)
Definition roundToDouble (z : Z) : Z :=
  let a := Z.abs z in
  if a <=? 2 ^ 53 then z
  else
    let ulp := 2 ^ (Z.log2 a - 52) in
    let q := a / ulp in
    let r := a mod ulp in
    let q' :=
      if 2 * r <? ulp then q
      else if ulp <? 2 * r then q + 1
      else if Z.even q then q else q + 1 in
    Z.sgn z * (q' * ulp).

(** [a - b] on numbers. *)
Definition subtract (a b : Z) : Z := roundToDouble (a - b).

(** ** Flag names ([collectFlagNames], [isSingleBit]) *)

Definition isSingleBit (value : Z) : bool :=
  negb (value =? 0) && (bitand value (subtract value 1) =? 0).

(** [Set.prototype.add] on an insertion-ordered set. *)
Definition set_add (name : jsstring) (names : list jsstring) : list jsstring :=
  if decide (name ∈ names) then names else names ++ [name].

Definition sortStrings (l : list jsstring) : list jsstring :=
  merge_sort str_le l.

(** One iteration of the loop over [Object.entries(flagEnum)]. *)
Definition flagStep (flags : Z) (names : list jsstring)
    (entry : jsstring * JsValue) : list jsstring :=
  match entry.2 with
  | JNumber value =>
      if negb (isSingleBit value) then names
      else if bitand flags value =? 0 then names
      else set_add entry.1 names
  | _ => names
  end.

Definition collectFlagNames (flagEnum : list (jsstring * JsValue))
    (flags : Z) : list jsstring :=
  sortStrings (foldl (flagStep flags) [] flagEnum).

(** ** Source files and the scanner's line map *)

(** A syntax-tree node as the compiler exposes it: [getFullStart()]
    (the span with its leading trivia), [getStart()] (the first token),
    [getEnd()], and the children in the order of [forEachChild]. *)
#[warnings="-register-all"]
Inductive Node : Type := mkNode {
  kind : N;
  getFullStart : nat;
  getStart : nat;
  getEnd : nat;
  children : list Node
}.

Record SourceFile := {
  fileName : jsstring;
  text : jsstring;
  rootNode : Node
}.

(** [sourceFile.getFullText()]. *)
Definition getFullText (sf : SourceFile) : jsstring := text sf.

(** [s.slice(from, to)] for [0 <= from], [0 <= to]. *)
Definition slice (s : jsstring) (from to : nat) : jsstring :=
  take (to - from) (drop from s).

(** [node.getText()]. *)
Definition getText (sf : SourceFile) (node : Node) : jsstring :=
  slice (text sf) (getStart node) (getEnd node).

(** The compiler's [computeLineStarts]: a line ends after LF, CR, CR LF,
    U+2028 or U+2029. *)
Definition isLineBreak (ch : N) : bool :=
  ((ch =? 10) || (ch =? 13) || (ch =? 8232) || (ch =? 8233))%N.

Fixpoint lineStartsFrom (s : jsstring) (pos lineStart : nat) : list nat :=
  match s with
  | [] => [lineStart]
  | ch :: rest =>
      if (ch =? 13)%N then
        match rest with
        | ch2 :: rest2 =>
            if (ch2 =? 10)%N
            then lineStart :: lineStartsFrom rest2 (pos + 2) (pos + 2)
            else lineStart :: lineStartsFrom rest (pos + 1) (pos + 1)
        | [] => lineStart :: lineStartsFrom rest (pos + 1) (pos + 1)
        end
      else if isLineBreak ch
      then lineStart :: lineStartsFrom rest (pos + 1) (pos + 1)
      else lineStartsFrom rest (pos + 1) lineStart
  end%nat.

Definition getLineStarts (sf : SourceFile) : list nat :=
  lineStartsFrom (text sf) 0 0.

(** The compiler's [computeLineOfPosition]: the index of the last line
    start at or before [position] (a binary search in the compiler). *)
Fixpoint computeLineOfPosition (lineStarts : list nat) (position : nat) : nat :=
  match lineStarts with
  | _ :: ((next :: _) as rest) =>
      if (next <=? position)%nat
      then S (computeLineOfPosition rest position)
      else 0%nat
  | _ => 0%nat
  end.

(** [sourceFile.getLineAndCharacterOfPosition(position)], both zero-based. *)
Definition getLineAndCharacterOfPosition (sf : SourceFile) (position : nat)
    : nat * nat :=
  let lineStarts := getLineStarts sf in
  let line := computeLineOfPosition lineStarts position in
  (line, (position - nth line lineStarts 0)%nat).

(** The message of the compiler's [Debug.fail] for a line that the
    line map does not have; the line map is the one computed from the
    text, so the message ends in [true]. *)
Definition badLineMessage (line lineStartsLength : nat) : jsstring :=
  str "Debug Failure. Bad line number. Line: " ++ showNumber (Z.of_nat line) ++
  str ", lineStarts.length: " ++ showNumber (Z.of_nat lineStartsLength) ++
  str " , line map is correct? true".

(** [sourceFile.getPositionOfLineAndCharacter(line, character)]: the
    compiler's [computePositionOfLineAndCharacter] without [allowEdits];
    its debug assertions throw. *)
Definition getPositionOfLineAndCharacter (sf : SourceFile)
    (line character : nat) : Result nat :=
  let lineStarts := getLineStarts sf in
  if (length lineStarts <=? line)%nat
  then Throw (badLineMessage line (length lineStarts))
  else
    let res := (nth line lineStarts 0 + character)%nat in
    if (line <? length lineStarts - 1)%nat
    then
      if (res <? nth (line + 1) lineStarts 0)%nat
      then Ok res
      else Throw (str "Debug Failure. False expression.")
    else
      if (res <=? length (text sf))%nat
      then Ok res
      else Throw (str "Debug Failure. False expression.").

(** ** Regular expressions of the runtime *)

(** The matching engine of the JavaScript runtime.  [regexpValid p f]
    tells whether [new RegExp(p, f)] is accepted; when it is not, the
    constructor throws a [SyntaxError] whose message, worded by the
    runtime, is [regexpSyntaxError p f].  [regexpMatch p f s from] is
    the first match of [p] under flags [f] in [s] that the engine finds
    when its search starts at index [from], as (start, end). *)
Record RegExpEngine := {
  regexpValid : jsstring -> jsstring -> bool;
  regexpSyntaxError : jsstring -> jsstring -> jsstring;
  regexpMatch : jsstring -> jsstring -> jsstring -> nat -> option (nat * nat)
}.

(** A [RegExp] object: its pattern, its flags and the mutable
    [lastIndex]. *)
Record RegExp := {
  source : jsstring;
  reFlags : jsstring;
  lastIndex : nat
}.

Definition global (re : RegExp) : bool := includes (reFlags re) (str "g").
Definition sticky (re : RegExp) : bool := includes (reFlags re) (str "y").

Definition setLastIndex (re : RegExp) (i : nat) : RegExp :=
  {| source := source re; reFlags := reFlags re; lastIndex := i |}.

Record RegExpExecArray := {
  index : nat;
  matched : jsstring
}.

(** [matcher.exec(text)] (RegExpBuiltinExec): the search starts at
    [lastIndex] when the expression is global or sticky, and a match
    leaves [lastIndex] at its end; a failure resets it. *)
Definition exec (E : RegExpEngine) (re : RegExp) (s : jsstring)
    : option RegExpExecArray * RegExp :=
  let useLast := global re || sticky re in
  let from := if useLast then lastIndex re else 0%nat in
  if (length s <? from)%nat then (None, setLastIndex re 0)
  else
    match regexpMatch E (source re) (reFlags re) s from with
    | None => (None, setLastIndex re 0)
    | Some (b, e) =>
        (Some {| index := b; matched := slice s b e |},
         if useLast then setLastIndex re e else re)
    end.

(** ** Queries and their resolution ([resolvePosition]) *)

Inductive TypeQuery :=
| PositionQuery (file : jsstring) (project : option jsstring)
    (line column : Z)
| RegexQuery (file : jsstring) (project : option jsstring)
    (regex : jsstring) (regexFlags : option jsstring)
    (matchIndex : option Z).

Definition queryFile (q : TypeQuery) : jsstring :=
  match q with
  | PositionQuery f _ _ _ => f
  | RegexQuery f _ _ _ _ => f
  end.

Definition queryProject (q : TypeQuery) : option jsstring :=
  match q with
  | PositionQuery _ p _ _ => p
  | RegexQuery _ p _ _ _ => p
  end.

Record QueryResolution := {
  res_position : nat;
  res_line : Z;
  res_column : Z;
  res_matchedText : jsstring
}.

Definition includeGlobalFlag (flags : jsstring) : jsstring :=
  if includes flags (str "g") then flags else flags ++ str "g".

(** The message of the error thrown after the search loop. *)
Definition noMatchMessage (regex : jsstring) (matchIndex : Z)
    (sf : SourceFile) : jsstring :=
  str "Regex " ++ [34%N] ++ regex ++ [34%N] ++ str " did not match index " ++
  showNumber matchIndex ++ str " in " ++ fileName sf.

Definition positionMessage : jsstring :=
  str "Line and column must be 1-based and positive".

(** The [while ((match = matcher.exec(text)) !== null)] loop, with the
    [RegExp] object and the counter [index] as explicit state.  The loop
    need not end (a negative [matchIndex] with a pattern that matches the
    empty string): [None] is a loop still running when [fuel] is out. *)
Fixpoint searchLoop (E : RegExpEngine) (sf : SourceFile) (regex : jsstring)
    (matchIndex : Z) (fuel : nat) (matcher : RegExp) (idx : Z)
    : option (Result QueryResolution) :=
  match fuel with
  | O => None
  | S fuel' =>
      match exec E matcher (getFullText sf) with
      | (None, _) => Some (Throw (noMatchMessage regex matchIndex sf))
      | (Some m, matcher') =>
          if idx =? matchIndex then
            let position := index m in
            let lc := getLineAndCharacterOfPosition sf position in
            Some (Ok {| res_position := position;
                        res_line := Z.of_nat lc.1 + 1;
                        res_column := Z.of_nat lc.2 + 1;
                        res_matchedText := matched m |})
          else if negb (global matcher')
          then Some (Throw (noMatchMessage regex matchIndex sf))
          else searchLoop E sf regex matchIndex fuel' matcher' (idx + 1)
      end
  end.

Definition resolvePosition (E : RegExpEngine) (fuel : nat) (sf : SourceFile)
    (query : TypeQuery) : option (Result QueryResolution) :=
  match query with
  | RegexQuery _ _ regex regexFlags matchIndexOpt =>
      let matchIndex := default 0 matchIndexOpt in
      let flags := includeGlobalFlag (default [] regexFlags) in
      if negb (regexpValid E regex flags)
      then Some (Throw (regexpSyntaxError E regex flags))
      else
        let matcher := {| source := regex; reFlags := flags; lastIndex := 0 |} in
        searchLoop E sf regex matchIndex fuel matcher 0
  | PositionQuery _ _ line column =>
      if (line <=? 0) || (column <=? 0)
      then Some (Throw positionMessage)
      else
        Some (position ← getPositionOfLineAndCharacter sf
                           (Z.to_nat (line - 1)) (Z.to_nat (column - 1));
              Ok {| res_position := position;
                    res_line := line;
                    res_column := column;
                    res_matchedText := [] |})
  end.

(** ** Node location ([findClosestNode]) *)

(** The closure [visit] of [findClosestNode]; the captured variable
    [bestNode] is threaded through. *)
Fixpoint visit (position : nat) (node : Node) (bestNode : Node) : Node :=
  match node with
  | mkNode _ fullStart start end_ cs =>
      if (position <? fullStart)%nat || (end_ <? position)%nat then bestNode
      else
        let bestNode :=
          if (start <=? position)%nat && (position <=? end_)%nat
          then node else bestNode in
        fold_left (fun best child => visit position child best) cs bestNode
  end.

Definition findClosestNode (sf : SourceFile) (position : nat) : Node :=
  visit position (rootNode sf) (rootNode sf).

(** ** Declaration snippets ([condenseSnippet]) *)

(** The characters of the class [\s], which are also those removed by
    [trim()]: white space and line terminators. *)
Definition isWhiteSpace (ch : N) : bool :=
  ((9 <=? ch) && (ch <=? 13) || (ch =? 32) || (ch =? 160) || (ch =? 5760)
   || (8192 <=? ch) && (ch <=? 8202) || (ch =? 8232) || (ch =? 8233)
   || (ch =? 8239) || (ch =? 8287) || (ch =? 12288) || (ch =? 65279))%N.

(** [s.replace(/\s+/g, " ")]: [inRun] tells that the previous code unit
    belonged to the run of white space being replaced. *)
Fixpoint replaceWhiteSpace (inRun : bool) (s : jsstring) : jsstring :=
  match s with
  | [] => []
  | ch :: rest =>
      if isWhiteSpace ch then
        if inRun then replaceWhiteSpace true rest
        else 32%N :: replaceWhiteSpace true rest
      else ch :: replaceWhiteSpace false rest
  end.

Fixpoint trimStart (s : jsstring) : jsstring :=
  match s with
  | [] => []
  | ch :: rest => if isWhiteSpace ch then trimStart rest else s
  end.

Definition trimEnd (s : jsstring) : jsstring :=
  reverse (trimStart (reverse s)).

Definition trim (s : jsstring) : jsstring := trimEnd (trimStart s).

(** The literal appended to a truncated snippet, code unit by code unit
    as the source file has it: U+00E2 U+20AC U+00A6. *)
Definition truncationMarker : jsstring := [226%N; 8364%N; 166%N].

(** The horizontal ellipsis U+2026. *)
Definition ellipsis : N := 8230%N.

Definition defaultMaxLength : nat := 160.

Definition singleLineOf (snippet : jsstring) : jsstring :=
  trim (replaceWhiteSpace false snippet).

Definition condenseSnippet (snippet : jsstring) (maxLength : nat) : jsstring :=
  let singleLine := singleLineOf snippet in
  if (length singleLine <=? maxLength)%nat then singleLine
  else slice singleLine 0 maxLength ++ truncationMarker.

(** ** The type checker *)

(** A declaration is a node together with the source file it lies in. *)
Record Declaration := {
  declNode : Node;
  declSource : SourceFile
}.

Record TsSymbol := {
  symName : jsstring;
  symFlags : Z;
  symDeclarations : option (list Declaration)
}.

Inductive SignatureKind := Call | Construct.

(** The part of [ts.TypeChecker], [ts.Type] and [ts.Signature] that the
    tool calls. *)
Record TypeChecker := {
  TsType : Type;
  TsSignature : Type;
  getTypeAtLocation : Node -> TsType;
  getSymbolAtLocation : Node -> option TsSymbol;
  typeGetFlags : TsType -> Z;
  typeGetSymbol : TsType -> option TsSymbol;
  unionTypes : TsType -> option (list TsType);
  getNonNullableType : TsType -> TsType;
  getApparentType : TsType -> TsType;
  getPropertiesOfType : TsType -> list TsSymbol;
  getTypeOfSymbolAtLocation : TsSymbol -> Node -> TsType;
  getSignaturesOfType : TsType -> SignatureKind -> list TsSignature;
  typeToString : TsType -> Node -> option Z -> jsstring;
  signatureToString : TsSignature -> Node -> jsstring;
  symbolToString : TsSymbol -> Node -> Z -> jsstring
}.

(** The enumeration objects and constants of the compiler that the tool
    reads. *)
Record TsEnums := {
  TypeFlags : list (jsstring * JsValue);
  SymbolFlags : list (jsstring * JsValue);
  SyntaxKind : N -> jsstring;
  TypeFlags_Union : Z;
  SymbolFlags_Optional : Z;
  SymbolFlags_All : Z;
  TypeFormatFlags_NoTruncation : Z;
  TypeFormatFlags_UseFullyQualifiedType : Z;
  TypeFormatFlags_WriteArrowStyleSignature : Z;
  TypeFormatFlags_AddUndefined : Z;
  TypeFormatFlags_UseAliasDefinedOutsideCurrentScope : Z
}.

(** ** The result record *)

Record DeclarationInfo := {
  di_file : jsstring;
  di_line : Z;
  di_column : Z;
  di_kind : jsstring;
  di_snippet : jsstring
}.

Record PropertyInfo := {
  pi_name : jsstring;
  pi_type : jsstring;
  pi_optional : bool
}.

Record SignatureInfo := {
  si_kind : SignatureKind;
  si_signature : jsstring
}.

Inductive DiagnosticCategory := Warning | Error | Suggestion | Message.

Record DiagnosticInfo := {
  dg_category : DiagnosticCategory;
  dg_message : jsstring;
  dg_file : option jsstring;
  dg_line : option Z;
  dg_column : option Z
}.

Record PositionInfo := {
  pos_line : Z;
  pos_column : Z;
  pos_offset : nat
}.

Record FlagInfo := {
  fl_flags : Z;
  fl_names : list jsstring
}.

Record SymbolInfo := {
  sy_name : jsstring;
  sy_flags : FlagInfo
}.

Record TypeInfo := {
  ti_file : jsstring;
  ti_project : option jsstring;
  ti_position : PositionInfo;
  ti_matchedText : jsstring;
  ti_nodeKind : jsstring;
  ti_typeString : jsstring;
  ti_typeFlags : FlagInfo;
  ti_symbol : option SymbolInfo;
  ti_signatures : list SignatureInfo;
  ti_properties : list PropertyInfo;
  ti_declarations : list DeclarationInfo;
  ti_diagnostics : list DiagnosticInfo
}.

(** ** Fact aggregation *)

Definition collectTypeFlagNames (K : TsEnums) (flags : Z) : list jsstring :=
  collectFlagNames (TypeFlags K) flags.

Definition collectSymbolFlagNames (K : TsEnums) (flags : Z) : list jsstring :=
  collectFlagNames (SymbolFlags K) flags.

Definition defaultSignatureLimit : nat := 5.

Definition collectSignatures (C : TypeChecker) (type : TsType C) (node : Node)
    (limit : nat) : list SignatureInfo :=
  map (fun signature =>
         {| si_kind := Call; si_signature := signatureToString C signature node |})
      (take limit (getSignaturesOfType C type Call))
  ++
  map (fun signature =>
         {| si_kind := Construct; si_signature := signatureToString C signature node |})
      (take limit (getSignaturesOfType C type Construct)).

(** The three maps of [collectProperties]. *)
Record PropertyMaps := {
  symbolByName : gmap jsstring TsSymbol;
  presenceByName : gmap jsstring Z;
  optionalFlagByName : gmap jsstring bool
}.

Definition emptyMaps : PropertyMaps :=
  {| symbolByName := ∅; presenceByName := ∅; optionalFlagByName := ∅ |}.

(** The body of [for (const prop of props)], on the maps and the set
    [seen] of the member being walked. *)
Definition propStep (K : TsEnums) (st : PropertyMaps * gset jsstring)
    (prop : TsSymbol) : PropertyMaps * gset jsstring :=
  let maps := st.1 in
  let seen := st.2 in
  let name := symName prop in
  let symbols :=
    if decide (is_Some (symbolByName maps !! name)) then symbolByName maps
    else <[name := prop]> (symbolByName maps) in
  let presence :=
    if decide (name ∈ seen) then presenceByName maps
    else <[name := default 0 (presenceByName maps !! name) + 1]>
           (presenceByName maps) in
  let seen' := if decide (name ∈ seen) then seen else {[name]} ∪ seen in
  let optionalFlags :=
    if negb (bitand (symFlags prop) (SymbolFlags_Optional K) =? 0)
    then <[name := true]> (optionalFlagByName maps)
    else if decide (is_Some (optionalFlagByName maps !! name))
         then optionalFlagByName maps
         else <[name := false]> (optionalFlagByName maps) in
  ({| symbolByName := symbols;
      presenceByName := presence;
      optionalFlagByName := optionalFlags |}, seen').

(** The body of [for (const member of memberTypes)]. *)
Definition memberStep (K : TsEnums) (C : TypeChecker) (maps : PropertyMaps)
    (member : TsType C) : PropertyMaps :=
  let apparent := getApparentType C member in
  let props := getPropertiesOfType C apparent in
  (foldl (propStep K) (maps, ∅) props).1.

Definition memberTypesOf (K : TsEnums) (C : TypeChecker) (type : TsType C)
    : list (TsType C) :=
  let nonNullable := getNonNullableType C type in
  if negb (bitand (typeGetFlags C nonNullable) (TypeFlags_Union K) =? 0)
  then default [] (unionTypes C nonNullable)
  else [nonNullable].

Definition defaultPropertyLimit : nat := 25.

Definition propertyOf (C : TypeChecker) (node : Node) (maps : PropertyMaps)
    (totalMembers : Z) (name : jsstring) : option PropertyInfo :=
  symbol ← symbolByName maps !! name;
  let declaration := symDeclarations symbol ≫= head in
  let location := from_option declNode node declaration in
  let propertyType := getTypeOfSymbolAtLocation C symbol location in
  let optionalByUnion := default 0 (presenceByName maps !! name) <? totalMembers in
  let optionalByFlag := default false (optionalFlagByName maps !! name) in
  Some {| pi_name := name;
          pi_type := typeToString C propertyType location None;
          pi_optional := optionalByFlag || optionalByUnion |}.

Definition collectProperties (K : TsEnums) (C : TypeChecker) (type : TsType C)
    (node : Node) (limit : nat) : list PropertyInfo :=
  let memberTypes := memberTypesOf K C type in
  let maps := foldl (memberStep K C) emptyMaps memberTypes in
  let names := sortStrings (elements (dom (symbolByName maps))) in
  let totalMembers :=
    if (0 <? length memberTypes)%nat then Z.of_nat (length memberTypes) else 1 in
  omap (propertyOf C node maps totalMembers) (take limit names).

Definition defaultDeclarationLimit : nat := 10.

Definition collectDeclarations (K : TsEnums) (normalize : jsstring -> jsstring)
    (symbol : TsSymbol) (limit : nat) : list DeclarationInfo :=
  let declarations := default [] (symDeclarations symbol) in
  map (fun declaration =>
         let source := declSource declaration in
         let node := declNode declaration in
         let lc := getLineAndCharacterOfPosition source (getStart node) in
         let rawSnippet := slice (text source) (getStart node) (getEnd node) in
         let snippet := condenseSnippet rawSnippet defaultMaxLength in
         {| di_file := normalize (fileName source);
            di_line := Z.of_nat lc.1 + 1;
            di_column := Z.of_nat lc.2 + 1;
            di_kind := SyntaxKind K (kind node);
            di_snippet := snippet |})
      (take limit declarations).

(** A diagnostic of the compiler, its message already flattened. *)
Record TsDiagnostic := {
  diagCategory : DiagnosticCategory;
  diagMessage : jsstring;
  diagFile : option SourceFile;
  diagStart : option nat
}.

Definition collectDiagnostics (normalize : jsstring -> jsstring)
    (diagnostics : list TsDiagnostic) : list DiagnosticInfo :=
  map (fun diagnostic =>
         match diagFile diagnostic, diagStart diagnostic with
         | Some diagFile, Some start =>
             let lc := getLineAndCharacterOfPosition diagFile start in
             {| dg_category := diagCategory diagnostic;
                dg_message := diagMessage diagnostic;
                dg_file := Some (normalize (fileName diagFile));
                dg_line := Some (Z.of_nat lc.1 + 1);
                dg_column := Some (Z.of_nat lc.2 + 1) |}
         | _, _ =>
             {| dg_category := diagCategory diagnostic;
                dg_message := diagMessage diagnostic;
                dg_file := None; dg_line := None; dg_column := None |}
         end)
      diagnostics.

(** ** [pickType] *)

Record ProgramContext := {
  checker : TypeChecker;
  getSourceFiles : list SourceFile;
  getCanonicalFileName : jsstring -> jsstring;
  configPath : option jsstring;
  getPreEmitDiagnostics : SourceFile -> list TsDiagnostic
}.

(** What [pickType] reaches outside the module: the file system, the
    program built for the file, the runtime's regular expressions and
    the compiler's enumerations. *)
Record Host := {
  path_resolve : jsstring -> jsstring;
  path_normalize : jsstring -> jsstring;
  existsSync : jsstring -> bool;
  createProgramForFile : jsstring -> option jsstring -> Result ProgramContext;
  engine : RegExpEngine;
  enums : TsEnums
}.

Definition typeFormatFlags (K : TsEnums) : Z :=
  bitor (bitor (bitor (bitor (TypeFormatFlags_NoTruncation K)
                             (TypeFormatFlags_UseFullyQualifiedType K))
                      (TypeFormatFlags_WriteArrowStyleSignature K))
               (TypeFormatFlags_AddUndefined K))
        (TypeFormatFlags_UseAliasDefinedOutsideCurrentScope K).

(** The part of [pickType] after the source file is found. *)
Definition assemble (H : Host) (ctx : ProgramContext) (resolvedFile : jsstring)
    (sourceFile : SourceFile) (resolution : QueryResolution) : TypeInfo :=
  let K := enums H in
  let C := checker ctx in
  let node := findClosestNode sourceFile (res_position resolution) in
  let type := getTypeAtLocation C node in
  let typeFlags := collectTypeFlagNames K (typeGetFlags C type) in
  let symbol :=
    match getSymbolAtLocation C node with
    | Some s => Some s
    | None => typeGetSymbol C type
    end in
  let signatures := collectSignatures C type node defaultSignatureLimit in
  let properties := collectProperties K C type node defaultPropertyLimit in
  let declarations :=
    match symbol with
    | Some s => collectDeclarations K (path_normalize H) s defaultDeclarationLimit
    | None => []
    end in
  let diagnostics :=
    collectDiagnostics (path_normalize H) (getPreEmitDiagnostics ctx sourceFile) in
  let matchedText :=
    if (0 <? length (res_matchedText resolution))%nat
    then res_matchedText resolution
    else getText sourceFile node in
  {| ti_file := path_normalize H resolvedFile;
     ti_project := configPath ctx;
     ti_position := {| pos_line := res_line resolution;
                       pos_column := res_column resolution;
                       pos_offset := res_position resolution |};
     ti_matchedText := matchedText;
     ti_nodeKind := SyntaxKind K (kind node);
     ti_typeString := typeToString C type node (Some (typeFormatFlags K));
     ti_typeFlags := {| fl_flags := typeGetFlags C type; fl_names := typeFlags |};
     ti_symbol :=
       match symbol with
       | Some s =>
           Some {| sy_name :=
                     symbolToString C s node
                       (bitor (SymbolFlags_All K) (SymbolFlags_Optional K));
                   sy_flags :=
                     {| fl_flags := symFlags s;
                        fl_names := collectSymbolFlagNames K (symFlags s) |} |}
       | None => None
       end;
     ti_signatures := signatures;
     ti_properties := properties;
     ti_declarations := declarations;
     ti_diagnostics := diagnostics |}.

Definition findSourceFile (ctx : ProgramContext) (resolvedFile : jsstring)
    : option SourceFile :=
  let canonical := getCanonicalFileName ctx resolvedFile in
  find (fun sf => bool_decide (getCanonicalFileName ctx (fileName sf) = canonical))
       (getSourceFiles ctx).

Definition pickType (H : Host) (fuel : nat) (query : TypeQuery)
    : option (Result TypeInfo) :=
  let resolvedFile := path_resolve H (queryFile query) in
  if negb (existsSync H resolvedFile)
  then Some (Throw (str "File not found: " ++ resolvedFile))
  else
    match createProgramForFile H resolvedFile (queryProject query) with
    | Throw m => Some (Throw m)
    | Ok ctx =>
        match findSourceFile ctx resolvedFile with
        | None => Some (Throw (str "Failed to load source file: " ++ resolvedFile))
        | Some sourceFile =>
            match resolvePosition (engine H) fuel sourceFile query with
            | None => None
            | Some (Throw m) => Some (Throw m)
            | Some (Ok resolution) =>
                Some (Ok (assemble H ctx resolvedFile sourceFile resolution))
            end
        end
    end.

(** ** Output filters ([applyOutputFilters] of the command line) *)

(** Truthiness of an option value. *)
Definition truthy (v : option JsValue) : bool :=
  match v with
  | Some (JBoolean b) => b
  | Some (JNumber n) => negb (n =? 0)
  | Some (JString s) => (0 <? length s)%nat
  | Some JUndefined => false
  | None => false
  end.

Definition setDiagnostics (r : TypeInfo) (l : list DiagnosticInfo) : TypeInfo :=
  {| ti_file := ti_file r; ti_project := ti_project r;
     ti_position := ti_position r; ti_matchedText := ti_matchedText r;
     ti_nodeKind := ti_nodeKind r; ti_typeString := ti_typeString r;
     ti_typeFlags := ti_typeFlags r; ti_symbol := ti_symbol r;
     ti_signatures := ti_signatures r; ti_properties := ti_properties r;
     ti_declarations := ti_declarations r; ti_diagnostics := l |}.

Definition setProperties (r : TypeInfo) (l : list PropertyInfo) : TypeInfo :=
  {| ti_file := ti_file r; ti_project := ti_project r;
     ti_position := ti_position r; ti_matchedText := ti_matchedText r;
     ti_nodeKind := ti_nodeKind r; ti_typeString := ti_typeString r;
     ti_typeFlags := ti_typeFlags r; ti_symbol := ti_symbol r;
     ti_signatures := ti_signatures r; ti_properties := l;
     ti_declarations := ti_declarations r; ti_diagnostics := ti_diagnostics r |}.

Definition setSignatures (r : TypeInfo) (l : list SignatureInfo) : TypeInfo :=
  {| ti_file := ti_file r; ti_project := ti_project r;
     ti_position := ti_position r; ti_matchedText := ti_matchedText r;
     ti_nodeKind := ti_nodeKind r; ti_typeString := ti_typeString r;
     ti_typeFlags := ti_typeFlags r; ti_symbol := ti_symbol r;
     ti_signatures := l; ti_properties := ti_properties r;
     ti_declarations := ti_declarations r; ti_diagnostics := ti_diagnostics r |}.

(** [values] is the object of parsed options; [clone] starts as a copy
    of [result] with its three lists copied. *)
Definition applyOutputFilters (result : TypeInfo)
    (values : gmap jsstring JsValue) : TypeInfo :=
  let clone :=
    setSignatures
      (setProperties
         (setDiagnostics result (ti_diagnostics result))
         (ti_properties result))
      (ti_signatures result) in
  let clone :=
    if truthy (values !! str "omit-diagnostics")
    then setDiagnostics clone [] else clone in
  let clone :=
    if truthy (values !! str "omit-properties")
    then setProperties clone [] else clone in
  let clone :=
    if truthy (values !! str "omit-signatures")
    then setSignatures clone [] else clone in
  clone.

(** ** Reference notions used by the statements *)

(** The successive non-overlapping matches of a pattern, left to right
    from offset 0: each search starts where the previous match ended,
    one code unit further after an empty match (the enumeration of
    [String.prototype.matchAll]). *)
Fixpoint matchesFrom (E : RegExpEngine) (regex flags s : jsstring)
    (fuel from : nat) : list (nat * nat) :=
  match fuel with
  | O => []
  | S fuel' =>
      if (length s <? from)%nat then []
      else
        match regexpMatch E regex flags s from with
        | None => []
        | Some (b, e) =>
            (b, e) :: matchesFrom E regex flags s fuel'
                        (if (e =? b)%nat then S e else e)
        end
  end.

Definition nonOverlappingMatches (E : RegExpEngine) (regex flags s : jsstring)
    : list (nat * nat) :=
  matchesFrom E regex flags s (S (length s)) 0.

(** The resolution of a pattern query at the match from [b] to [e]. *)
Definition resolutionAt (sf : SourceFile) (b e : nat) : QueryResolution :=
  let lc := getLineAndCharacterOfPosition sf b in
  {| res_position := b;
     res_line := Z.of_nat lc.1 + 1;
     res_column := Z.of_nat lc.2 + 1;
     res_matchedText := slice (text sf) b e |}.

(** An engine reports matches inside the text and not before the index
    its search started at. *)
Definition engineSound (E : RegExpEngine) : Prop :=
  forall regex flags s from b e,
    regexpMatch E regex flags s from = Some (b, e) ->
    (from <= b /\ b <= e /\ e <= length s)%nat.

(** Spans of a node: with its leading trivia, and from its first token. *)
Definition fullSpanContains (n : Node) (p : nat) : bool :=
  (getFullStart n <=? p)%nat && (p <=? getEnd n)%nat.

Definition tokenSpanContains (n : Node) (p : nat) : bool :=
  (getStart n <=? p)%nat && (p <=? getEnd n)%nat.

(** [entered p n d]: the traversal started at [n] reaches [d], every
    node on the way (both included) having [p] in its full span. *)
Inductive entered (p : nat) : Node -> Node -> Prop :=
| entered_here n :
    fullSpanContains n p = true -> entered p n n
| entered_child n c d :
    fullSpanContains n p = true -> c ∈ children n -> entered p c d ->
    entered p n d.

(** The nodes that [visit] assigns to [bestNode], in the order of the
    traversal. *)
Fixpoint candidates (p : nat) (n : Node) : list Node :=
  match n with
  | mkNode _ fullStart start end_ cs =>
      if (p <? fullStart)%nat || (end_ <? p)%nat then []
      else
        (if (start <=? p)%nat && (p <=? end_)%nat then [n] else [])
        ++ concat (map (candidates p) cs)
  end.

(** The locator as the design document words it: a most specific node
    among those whose full span contains the offset, that is, one none
    of whose children contains the offset. *)
Definition deepestContaining (root : Node) (p : nat) (r : Node) : Prop :=
  entered p root r /\ forall c, c ∈ children r -> fullSpanContains c p = false.

(** An entry of the enumeration that passes the tests of the loop. *)
Definition selected (flags : Z) (entry : jsstring * JsValue) : Prop :=
  exists value,
    entry.2 = JNumber value /\ isSingleBit value = true /\ bitand flags value <> 0.

(** A string is condensed when its white space is single blanks in
    between other characters. *)
Fixpoint condensedFrom (afterSpace : bool) (s : jsstring) : bool :=
  match s with
  | [] => negb afterSpace
  | ch :: rest =>
      if isWhiteSpace ch
      then (ch =? 32)%N && negb afterSpace && condensedFrom true rest
      else condensedFrom false rest
  end.

Definition condensed (s : jsstring) : bool :=
  match s with
  | [] => true
  | _ => condensedFrom true s
  end.




Definition named (name : jsstring) (prop : TsSymbol) : bool :=
  bool_decide (symName prop = name).




Definition apparentProperties (C : TypeChecker) (member : TsType C)
    : list TsSymbol :=
  getPropertiesOfType C (getApparentType C member).


(** A position the line map accepts: an existing line, and a column up to
    the last code unit of the line, its terminator included (on the last
    line: up to the end of the text). *)
Definition lastOffsetOfLine (sf : SourceFile) (i : nat) : nat :=
  let lineStarts := getLineStarts sf in
  if (S i <? length lineStarts)%nat
  then (nth (S i) lineStarts 0 - 1)%nat
  else length (text sf).

Definition withinFileBounds (sf : SourceFile) (line column : Z) : Prop :=
  1 <= line <= Z.of_nat (length (getLineStarts sf)) /\
  1 <= column /\
  Z.of_nat (nth (Z.to_nat (line - 1)) (getLineStarts sf) 0%nat) + (column - 1)
    <= Z.of_nat (lastOffsetOfLine sf (Z.to_nat (line - 1))).

(** ** Sample data *)

(** A small matching engine, enough to run the search loop on concrete
    patterns: a pattern is a sequence of literal characters, each
    optionally followed by [*] (greedy, with backtracking); the flags
    [d], [g], [m], [s] and [y] are accepted. *)
Inductive Atom := Lit (c : N) | Star (c : N).

Definition isMetaCharacter (c : N) : bool :=
  bool_decide (c ∈ str "\^$.|?*+()[]{}").

Fixpoint parsePattern (p : jsstring) : option (list Atom) :=
  match p with
  | [] => Some []
  | c :: rest =>
      if isMetaCharacter c then None
      else
        match rest with
        | c2 :: rest2 =>
            if (c2 =? 42)%N
            then cons (Star c) <$> parsePattern rest2
            else cons (Lit c) <$> parsePattern rest
        | [] => Some [Lit c]
        end
  end.

(** Length of the match of [atoms] at the head of the string. *)
Fixpoint matchHere (atoms : list Atom) : jsstring -> option nat :=
  match atoms with
  | [] => fun _ => Some 0%nat
  | Lit c :: more =>
      fun s =>
        match s with
        | x :: s' => if (x =? c)%N then S <$> matchHere more s' else None
        | [] => None
        end
  | Star c :: more =>
      fix star (s : jsstring) : option nat :=
        match s with
        | x :: s' =>
            if (x =? c)%N then
              match star s' with
              | Some n => Some (S n)
              | None => matchHere more s
              end
            else matchHere more s
        | [] => matchHere more []
        end
  end.

(** Leftmost match at or after [from]; [offset] is where [s] starts in
    the text. *)
Fixpoint searchFrom (atoms : list Atom) (s : jsstring) (from offset : nat)
    : option (nat * nat) :=
  let next :=
    match s with
    | [] => None
    | _ :: s' => searchFrom atoms s' from (S offset)
    end in
  if (offset <? from)%nat then next
  else
    match matchHere atoms s with
    | Some n => Some (offset, (offset + n)%nat)
    | None => next
    end.

Definition sampleFlagsValid (flags : jsstring) : bool :=
  forallb (fun c => bool_decide (c ∈ str "dgmsy")) flags
  && bool_decide (NoDup flags).

Definition sampleEngine : RegExpEngine :=
  {| regexpValid := fun p f =>
       sampleFlagsValid f && bool_decide (is_Some (parsePattern p));
     regexpSyntaxError := fun p f =>
       str "Invalid regular expression: /" ++ p ++ str "/" ++ f;
     regexpMatch := fun p f s from =>
       if (length s <? from)%nat then None
       else
         match parsePattern p with
         | None => None
         | Some atoms =>
             if includes f (str "y")
             then (fun n => (from, (from + n)%nat)) <$> matchHere atoms (drop from s)
             else searchFrom atoms s from 0
         end |}.

(** The file [a;  b;]: two expression statements, the second one after
    two blanks of trivia, and the end-of-file token. *)
Definition identA : Node := mkNode 80 0 0 1 [].
Definition statementA : Node := mkNode 244 0 0 2 [identA].
Definition identB : Node := mkNode 80 2 4 5 [].
Definition statementB : Node := mkNode 244 2 4 6 [identB].
Definition endOfFile : Node := mkNode 1 6 6 6 [].
Definition sampleRoot : Node := mkNode 307 0 0 6 [statementA; statementB; endOfFile].

Definition sampleFile : SourceFile :=
  {| fileName := str "/work/sample.ts";
     text := str "a;  b;";
     rootNode := sampleRoot |}.

(** The file [axx] for pattern queries. *)
Definition patternFile : SourceFile :=
  {| fileName := str "/work/pattern.ts";
     text := str "axx";
     rootNode := mkNode 307 0 0 3 [mkNode 244 0 0 3 [mkNode 80 0 0 3 []]] |}.

(** A file of two lines, [ab] and [cd], separated by CR LF. *)
Definition twoLineFile : SourceFile :=
  {| fileName := str "/work/lines.ts";
     text := str "ab" ++ [13%N; 10%N] ++ str "cd";
     rootNode := mkNode 307 0 0 6 [] |}.

(** Types of the sample checker: an object type with its properties, or
    a union of such types. *)
Inductive SampleType :=
| TObject (props : list TsSymbol)
| TUnion (members : list (list TsSymbol)).

Definition sampleChecker (typeOf : Node -> SampleType)
    (symbolOf : Node -> option TsSymbol) : TypeChecker :=
  {| TsType := SampleType;
     TsSignature := jsstring;
     getTypeAtLocation := typeOf;
     getSymbolAtLocation := symbolOf;
     typeGetFlags := fun t =>
       match t with TObject _ => 524288 | TUnion _ => 1048576 end;
     typeGetSymbol := fun _ => None;
     unionTypes := fun t =>
       match t with TObject _ => None | TUnion ms => Some (map TObject ms) end;
     getNonNullableType := fun t => t;
     getApparentType := fun t => t;
     getPropertiesOfType := fun t =>
       match t with TObject ps => ps | TUnion _ => [] end;
     getTypeOfSymbolAtLocation := fun _ _ => TObject [];
     getSignaturesOfType := fun _ _ => [];
     typeToString := fun _ _ _ => str "{}";
     signatureToString := fun s _ => s;
     symbolToString := fun s _ _ => symName s |}.

Definition sampleEnums : TsEnums :=
  {| TypeFlags :=
       [ (str "524288", JString (str "Object"));
         (str "1048576", JString (str "Union"));
         (str "Object", JNumber 524288);
         (str "Union", JNumber 1048576);
         (str "UnionOrIntersection", JNumber 3145728) ];
     SymbolFlags :=
       [ (str "None", JNumber 0);
         (str "Property", JNumber 4);
         (str "Optional", JNumber 16777216);
         (str "Alias", JNumber 2097152);
         (str "AliasExcludes", JNumber 2097152);
         (str "All", JNumber (-1)) ];
     SyntaxKind := fun k =>
       if (k =? 80)%N then str "Identifier"
       else if (k =? 244)%N then str "ExpressionStatement"
       else if (k =? 307)%N then str "SourceFile"
       else str "EndOfFileToken";
     TypeFlags_Union := 1048576;
     SymbolFlags_Optional := 16777216;
     SymbolFlags_All := -1;
     TypeFormatFlags_NoTruncation := 1;
     TypeFormatFlags_UseFullyQualifiedType := 64;
     TypeFormatFlags_WriteArrowStyleSignature := 256;
     TypeFormatFlags_AddUndefined := 131072;
     TypeFormatFlags_UseAliasDefinedOutsideCurrentScope := 16384 |}.

(** A host that knows the two sample files and resolves no symbol. *)
Definition sampleContext : ProgramContext :=
  {| checker := sampleChecker (fun _ => TObject []) (fun _ => None);
     getSourceFiles := [sampleFile; patternFile];
     getCanonicalFileName := fun f => f;
     configPath := None;
     getPreEmitDiagnostics := fun _ => [] |}.

Definition sampleHost : Host :=
  {| path_resolve := fun f => f;
     path_normalize := fun f => f;
     existsSync := fun f =>
       bool_decide (f = str "/work/sample.ts" \/ f = str "/work/pattern.ts");
     createProgramForFile := fun _ _ => Ok sampleContext;
     engine := sampleEngine;
     enums := sampleEnums |}.

(** The type [{ id: string } | { id: string, email: string }]. *)
Definition propId : TsSymbol :=
  {| symName := str "id"; symFlags := 4; symDeclarations := None |}.
Definition propEmail : TsSymbol :=
  {| symName := str "email"; symFlags := 4; symDeclarations := None |}.
Definition sampleUnion : SampleType := TUnion [[propId]; [propId; propEmail]].


(** ** Command line ([buildQuery], [resolvePretty] of [src/cli.ts]) *)

(** [typeof v === "string" ? v : undefined]. *)
Definition stringOrUndefined (v : option JsValue) : option jsstring :=
  match v with
  | Some (JString s) => Some s
  | _ => None
  end.

Definition invalidIndexMessage (indexText : jsstring) : jsstring :=
  str "Invalid regex match index: " ++ indexText.

Definition togetherMessage : jsstring :=
  str "Line and column must be provided together".

Definition provideMessage : jsstring :=
  str "Provide either --regex or both --line and --column".

Definition invalidPositionMessage (lineText columnText : jsstring) : jsstring :=
  str "Invalid line or column: line=" ++ lineText ++ str ", column=" ++ columnText.

(** [toNumber s] is [Number(s)], [None] standing for NaN. *)
Definition buildQuery (toNumber : jsstring -> option Z) (file : jsstring)
    (values : gmap jsstring JsValue) : Result TypeQuery :=
  let project := stringOrUndefined (values !! str "project") in
  let regexText := stringOrUndefined (values !! str "regex") in
  let lineText := stringOrUndefined (values !! str "line") in
  let columnText := stringOrUndefined (values !! str "column") in
  let hasRegex := (0 <? length (default [] regexText))%nat in
  let hasLine := bool_decide (is_Some lineText) in
  let hasColumn := bool_decide (is_Some columnText) in
  if hasRegex then
    let regexFlags := stringOrUndefined (values !! str "regex-flags") in
    match stringOrUndefined (values !! str "index") with
    | Some indexText =>
        match toNumber indexText with
        | None => Throw (invalidIndexMessage indexText)
        | Some matchIndex =>
            Ok (RegexQuery file project (default [] regexText) regexFlags
                  (Some matchIndex))
        end
    | None => Ok (RegexQuery file project (default [] regexText) regexFlags None)
    end
  else if negb (eqb hasLine hasColumn) then Throw togetherMessage
  else if negb hasLine || negb hasColumn then Throw provideMessage
  else
    match toNumber (default [] lineText), toNumber (default [] columnText) with
    | Some line, Some column => Ok (PositionQuery file project line column)
    | _, _ =>
        Throw (invalidPositionMessage (default [] lineText) (default [] columnText))
    end.

Definition resolvePretty (values : gmap jsstring JsValue) : bool :=
  match values !! str "compact" with
  | Some (JBoolean compact) => negb compact
  | _ =>
      match values !! str "pretty" with
      | Some (JBoolean pretty) => pretty
      | _ => true
      end
  end.

(** The [try] block of [main] up to the record that is printed. *)
Definition runQuery (H : Host) (toNumber : jsstring -> option Z) (fuel : nat)
    (file : jsstring) (values : gmap jsstring JsValue)
    : option (Result TypeInfo) :=
  match buildQuery toNumber file values with
  | Throw m => Some (Throw m)
  | Ok query =>
      match pickType H fuel query with
      | None => None
      | Some (Throw m) => Some (Throw m)
      | Some (Ok result) => Some (Ok (applyOutputFilters result values))
      end
  end.

(** ** Project configuration ([resolveProjectConfig], [createProgramForFile]) *)

Module Project.

(** The file system and path functions of the runtime, and the
    compiler's upward search for a [tsconfig.json]. *)
Record FileSystem := {
  fs_resolve : jsstring -> jsstring;
  fs_normalize : jsstring -> jsstring;
  fs_join : jsstring -> jsstring -> jsstring;
  fs_extname : jsstring -> jsstring;
  fs_dirname : jsstring -> jsstring;
  fs_existsSync : jsstring -> bool;
  fs_isDirectory : jsstring -> bool;
  fs_findConfigFile : jsstring -> option jsstring
}.

Definition missingProjectMessage (resolvedProject : jsstring) : jsstring :=
  str "Project path does not exist: " ++ resolvedProject.

Definition noConfigMessage (resolvedProject : jsstring) : jsstring :=
  str "No tsconfig.json found in " ++ resolvedProject.

Definition notJsonMessage (resolvedProject : jsstring) : jsstring :=
  str "Project file must be a tsconfig.json, got: " ++ resolvedProject.

(** [if (project)] holds for a string that is not empty. *)
Definition resolveProjectConfig (F : FileSystem) (filePath : jsstring)
    (project : option jsstring) : Result (option jsstring) :=
  if (0 <? length (default [] project))%nat then
    let resolvedProject := fs_resolve F (default [] project) in
    if negb (fs_existsSync F resolvedProject)
    then Throw (missingProjectMessage resolvedProject)
    else if fs_isDirectory F resolvedProject then
      let candidate := fs_join F resolvedProject (str "tsconfig.json") in
      if negb (fs_existsSync F candidate)
      then Throw (noConfigMessage resolvedProject)
      else Ok (Some candidate)
    else
      let ext := fs_extname F resolvedProject in
      if negb (bool_decide (ext = str ".json"))
      then Throw (notJsonMessage resolvedProject)
      else Ok (Some resolvedProject)
  else
    let directory := fs_dirname F filePath in
    Ok (fs_findConfigFile F directory).

(** The result of [ts.parseJsonConfigFileContent], its diagnostics
    already flattened to strings. *)
Record ParsedCommandLine (Options References : Type) := {
  parsed_errors : list jsstring;
  parsed_fileNames : list jsstring;
  parsed_options : Options;
  parsed_projectReferences : option References
}.
Arguments parsed_errors {Options References} _.
Arguments parsed_fileNames {Options References} _.
Arguments parsed_options {Options References} _.
Arguments parsed_projectReferences {Options References} _.

(** The compiler functions that build a program.  [readConfigFile]
    throws the flattened text of [configFile.error]; [createProgram]
    stands for [ts.createCompilerHost] followed by [ts.createProgram]. *)
Record CompilerApi := {
  CompilerOptions : Type;
  ProjectReferences : Type;
  ConfigObject : Type;
  DEFAULT_COMPILER_OPTIONS : CompilerOptions;
  readConfigFile : jsstring -> Result ConfigObject;
  parseJsonConfigFileContent :
    ConfigObject -> jsstring -> jsstring ->
    ParsedCommandLine CompilerOptions ProjectReferences;
  createProgram :
    list jsstring -> CompilerOptions -> option ProjectReferences -> ProgramContext
}.

Definition withConfigPath (ctx : ProgramContext) (path : option jsstring)
    : ProgramContext :=
  {| checker := checker ctx;
     getSourceFiles := getSourceFiles ctx;
     getCanonicalFileName := getCanonicalFileName ctx;
     configPath := path;
     getPreEmitDiagnostics := getPreEmitDiagnostics ctx |}.

(** [messages.join("\n")]. *)
Fixpoint joinLines (messages : list jsstring) : jsstring :=
  match messages with
  | [] => []
  | [m] => m
  | m :: rest => m ++ [10%N] ++ joinLines rest
  end.

Definition readFailureMessage (configPath message : jsstring) : jsstring :=
  str "Failed to read tsconfig at " ++ configPath ++ str ": " ++ message.

Definition parseFailureMessage (configPath message : jsstring) : jsstring :=
  str "Failed to parse tsconfig at " ++ configPath ++ str ": " ++ message.

(** The root names handed to [ts.createProgram]: [parsed.fileNames],
    with [filePath] pushed when it is not among them. *)
Definition rootNames (fileNames : list jsstring) (filePath : jsstring)
    : list jsstring :=
  if bool_decide (filePath ∈ fileNames) then fileNames
  else fileNames ++ [filePath].

Definition createProgramForFile (F : FileSystem) (A : CompilerApi)
    (filePath : jsstring) (project : option jsstring) : Result ProgramContext :=
  match resolveProjectConfig F filePath project with
  | Throw m => Throw m
  | Ok configPath =>
      if negb (0 <? length (default [] configPath))%nat then
        Ok (withConfigPath
              (createProgram A [filePath] (DEFAULT_COMPILER_OPTIONS A) None)
              None)
      else
        let configPath := default [] configPath in
        match readConfigFile A configPath with
        | Throw message => Throw (readFailureMessage configPath message)
        | Ok config =>
            let parsed :=
              parseJsonConfigFileContent A config (fs_dirname F configPath)
                configPath in
            if (0 <? length (parsed_errors parsed))%nat
            then Throw (parseFailureMessage configPath
                          (joinLines (parsed_errors parsed)))
            else
              Ok (withConfigPath
                    (createProgram A (rootNames (parsed_fileNames parsed) filePath)
                       (parsed_options parsed)
                       (parsed_projectReferences parsed))
                    (Some configPath))
        end
  end.

End Project.

(** The host of [pickType] made of these functions. *)
Definition hostOf (F : Project.FileSystem) (A : Project.CompilerApi)
    (E : RegExpEngine) (K : TsEnums) : Host :=
  {| path_resolve := Project.fs_resolve F;
     path_normalize := Project.fs_normalize F;
     existsSync := Project.fs_existsSync F;
     createProgramForFile := Project.createProgramForFile F A;
     engine := E;
     enums := K |}.

(** ** Further reference notions *)

(** The first property called [name] among the members, in order. *)
Definition firstNamed (name : jsstring) (members : list (list TsSymbol))
    : option TsSymbol :=
  find (named name) (concat members).

(** White space reduced to single blanks, a blank at the end allowed. *)
Fixpoint blanksSingle (afterSpace : bool) (s : jsstring) : bool :=
  match s with
  | [] => true
  | ch :: rest =>
      if isWhiteSpace ch
      then (ch =? 32)%N && negb afterSpace && blanksSingle true rest
      else blanksSingle false rest
  end.

(** ** Further sample data *)

(** [Number] on decimal integers: an optional minus sign and digits;
    the empty string is 0. *)
Fixpoint digitsValue (acc : Z) (s : jsstring) : option Z :=
  match s with
  | [] => Some acc
  | ch :: rest =>
      if ((48 <=? ch) && (ch <=? 57))%N
      then digitsValue (10 * acc + Z.of_N (ch - 48)) rest
      else None
  end.

Definition sampleNumber (s : jsstring) : option Z :=
  match s with
  | [] => Some 0
  | 45%N :: ((_ :: _) as digits) => Z.opp <$> digitsValue 0 digits
  | _ => digitsValue 0 s
  end.

Definition endsWith (s suffix : jsstring) : bool :=
  bool_decide (drop (length s - length suffix) s = suffix).

(** A disk with the directory [/work] holding [tsconfig.json],
    [sample.ts] and [pattern.ts]. *)
Definition sampleFileSystem : Project.FileSystem :=
  {| Project.fs_resolve := fun p => p;
     Project.fs_normalize := fun p => p;
     Project.fs_join := fun a b => a ++ str "/" ++ b;
     Project.fs_extname := fun p =>
       if endsWith p (str ".json") then str ".json"
       else if endsWith p (str ".ts") then str ".ts" else [];
     Project.fs_dirname := fun _ => str "/work";
     Project.fs_existsSync := fun p =>
       bool_decide (p ∈ [str "/work"; str "/work/tsconfig.json";
                         str "/work/sample.ts"; str "/work/pattern.ts"]);
     Project.fs_isDirectory := fun p => bool_decide (p = str "/work");
     Project.fs_findConfigFile := fun d =>
       if bool_decide (d = str "/work") then Some (str "/work/tsconfig.json")
       else None |}.

Definition sampleApi : Project.CompilerApi :=
  {| Project.CompilerOptions := unit;
     Project.ProjectReferences := unit;
     Project.ConfigObject := unit;
     Project.DEFAULT_COMPILER_OPTIONS := tt;
     Project.readConfigFile := fun _ => Ok tt;
     Project.parseJsonConfigFileContent := fun _ _ _ =>
       {| Project.parsed_errors := [];
          Project.parsed_fileNames := [str "/work/sample.ts"];
          Project.parsed_options := tt;
          Project.parsed_projectReferences := None |};
     Project.createProgram := fun _ _ _ => sampleContext |}.

Definition sampleValues : gmap jsstring JsValue :=
  {[ str "line" := JString (str "1"); str "column" := JString (str "5");
     str "omit-properties" := JBoolean true ]}.

(** The record of the query at line 1, column 5 of [a;  b;]. *)
Definition sampleRecord : TypeInfo :=
  assemble sampleHost sampleContext (str "/work/sample.ts") sampleFile
    {| res_position := 4; res_line := 1; res_column := 5; res_matchedText := [] |}.

(** * Properties *)

(** ** Strings *)

Lemma startsWith_app (p t : jsstring) : startsWith p (p ++ t) = true.
Proof.
  induction p as [|a p IH]; cbn; [reflexivity|].
  rewrite N.eqb_refl. exact IH.
Qed.

Lemma includes_prefix (p t : jsstring) : includes (p ++ t) p = true.
Proof.
  destruct p as [|a p]; [destruct t; reflexivity|].
  cbn. rewrite N.eqb_refl, startsWith_app. reflexivity.
Qed.

Lemma includes_app_r (a s p : jsstring) :
  includes s p = true -> includes (a ++ s) p = true.
Proof.
  intros Hs. induction a as [|x a IH]; [exact Hs|].
  cbn. rewrite IH. apply orb_true_r.
Qed.

Lemma includes_refl (p : jsstring) : includes p p = true.
Proof. rewrite <- (app_nil_r p) at 1. apply includes_prefix. Qed.

(** ** Flag names *)

Lemma toInt32_range (z : Z) : - 2 ^ 31 <= toInt32 z < 2 ^ 31.
Proof.
  unfold toInt32. change (2 ^ 31) with 2147483648. change (2 ^ 32) with 4294967296.
  destruct (Z.leb_spec 2147483648 (z mod 4294967296)); Z.div_mod_to_equations; lia.
Qed.

Lemma toInt32_mod (z : Z) : toInt32 z mod 2 ^ 32 = z mod 2 ^ 32.
Proof.
  unfold toInt32. change (2 ^ 31) with 2147483648. change (2 ^ 32) with 4294967296.
  destruct (Z.leb_spec 2147483648 (z mod 4294967296)); Z.div_mod_to_equations; lia.
Qed.

Lemma toInt32_low_bits (z i : Z) :
  i < 32 -> Z.testbit (toInt32 z) i = Z.testbit z i.
Proof.
  intros Hi.
  rewrite <- (Z.mod_pow2_bits_low (toInt32 z) 32 i Hi), toInt32_mod.
  apply Z.mod_pow2_bits_low, Hi.
Qed.

Lemma int32_high_bits (x i : Z) :
  - 2 ^ 31 <= x < 2 ^ 31 -> 31 <= i -> Z.testbit x i = (x <? 0).
Proof.
  intros Hx Hi. destruct (Z.ltb_spec x 0) as [Hneg|Hpos].
  - apply Z.bits_above_log2_neg; [exact Hneg|].
    destruct (Z.eq_dec (Z.pred (- x)) 0) as [->|Hne]; [cbn; lia|].
    eapply Z.lt_le_trans; [|exact Hi].
    apply Z.log2_lt_pow2; lia.
  - apply Z.bits_above_log2; [exact Hpos|].
    destruct (Z.eq_dec x 0) as [->|Hne]; [cbn; lia|].
    eapply Z.lt_le_trans; [|exact Hi].
    apply Z.log2_lt_pow2; lia.
Qed.

(** [a & b] is zero exactly when the low 32 bits of [a] and [b] share no
    bit. *)
Lemma bitand_zero_mod (a b : Z) :
  bitand a b = 0 <-> Z.land (a mod 2 ^ 32) (b mod 2 ^ 32) = 0.
Proof.
  unfold bitand. split; intros Hzero; apply Z.bits_inj'; intros n Hn;
    rewrite Z.bits_0, Z.land_spec.
  - destruct (Z.lt_ge_cases n 32) as [Hlow|Hhigh].
    + rewrite !Z.mod_pow2_bits_low by exact Hlow.
      rewrite <- (toInt32_low_bits a n Hlow), <- (toInt32_low_bits b n Hlow).
      rewrite <- Z.land_spec, Hzero. apply Z.bits_0.
    + rewrite Z.mod_pow2_bits_high by lia. reflexivity.
  - assert (Hlow : forall i, 0 <= i < 32 ->
               Z.testbit (toInt32 a) i && Z.testbit (toInt32 b) i = false).
    { intros i Hi. rewrite !toInt32_low_bits by lia.
      rewrite <- (Z.mod_pow2_bits_low a 32 i), <- (Z.mod_pow2_bits_low b 32 i) by lia.
      rewrite <- Z.land_spec, Hzero. apply Z.bits_0. }
    destruct (Z.lt_ge_cases n 32) as [Hn32|Hn32]; [apply Hlow; lia|].
    rewrite !(int32_high_bits _ n) by (try apply toInt32_range; lia).
    rewrite <- !(int32_high_bits _ 31) by (try apply toInt32_range; lia).
    apply Hlow. lia.
Qed.

(** A positive number that shares no bit with its predecessor is a power
    of two. *)
Lemma land_pred_pow2 (p : positive) :
  Z.land (Z.pos p) (Z.pos p - 1) = 0 -> exists n, 0 <= n /\ Z.pos p = 2 ^ n.
Proof.
  induction p as [q IH|q IH|]; intros Hland.
  - exfalso.
    assert (Hshift : Z.shiftr (Z.land (Z.pos q~1) (Z.pos q~1 - 1)) 1 = 0)
      by (rewrite Hland; reflexivity).
    rewrite Z.shiftr_land, !Z.shiftr_div_pow2 in Hshift by lia.
    change (2 ^ 1) with 2 in Hshift.
    replace (Z.pos q~1 / 2) with (Z.pos q) in Hshift by (Z.div_mod_to_equations; lia).
    replace ((Z.pos q~1 - 1) / 2) with (Z.pos q) in Hshift by (Z.div_mod_to_equations; lia).
    rewrite Z.land_diag in Hshift. lia.
  - assert (Hshift : Z.shiftr (Z.land (Z.pos q~0) (Z.pos q~0 - 1)) 1 = 0)
      by (rewrite Hland; reflexivity).
    rewrite Z.shiftr_land, !Z.shiftr_div_pow2 in Hshift by lia.
    change (2 ^ 1) with 2 in Hshift.
    replace (Z.pos q~0 / 2) with (Z.pos q) in Hshift by (Z.div_mod_to_equations; lia).
    replace ((Z.pos q~0 - 1) / 2) with (Z.pos q - 1) in Hshift
      by (Z.div_mod_to_equations; lia).
    destruct (IH Hshift) as (n & Hn & Hq).
    exists (n + 1). split; [lia|].
    rewrite Z.pow_add_r by lia. change (2 ^ 1) with 2. lia.
  - exists 0. split; [lia | reflexivity].
Qed.

Lemma land_pow2_testbit (f n : Z) :
  0 <= n -> (Z.land f (2 ^ n) = 0 <-> Z.testbit f n = false).
Proof.
  intros Hn. split.
  - intros Hzero.
    assert (Hbit : Z.testbit (Z.land f (2 ^ n)) n = false)
      by (rewrite Hzero; apply Z.bits_0).
    rewrite Z.land_spec, Z.pow2_bits_eqb, Z.eqb_refl, andb_true_r in Hbit by exact Hn.
    exact Hbit.
  - intros Hbit. apply Z.bits_inj'. intros m Hm.
    rewrite Z.bits_0, Z.land_spec, Z.pow2_bits_eqb by exact Hn.
    destruct (Z.eqb_spec n m) as [<-|]; [rewrite Hbit; reflexivity|].
    apply andb_false_r.
Qed.

(** Subtraction is exact on the safe integers. *)
Lemma roundToDouble_safe (z : Z) : Z.abs z <= 2 ^ 53 -> roundToDouble z = z.
Proof.
  intros Hsafe. unfold roundToDouble. apply Z.leb_le in Hsafe.
  rewrite Hsafe. reflexivity.
Qed.

(** Beyond them it is not: [2^53 + 4 - 1] is [2^53 + 4], so that
    [2^53 + 4], whose low 32 bits are the single bit 4, does not pass
    the test. *)
Lemma isSingleBit_beyond_safe :
  subtract (2 ^ 53 + 4) 1 = 2 ^ 53 + 4 /\
  isSingleBit (2 ^ 53 + 4) = false /\
  (2 ^ 53 + 4) mod 2 ^ 32 = 2 ^ 2.
Proof. repeat split; vm_compute; reflexivity. Qed.

(** The safe constants that pass both tests of the loop: those whose
    low 32 bits are a single bit, set in the mask. *)
Lemma single_bit_selected (flags value : Z) :
  Z.abs value <= 2 ^ 53 ->
  isSingleBit value = true /\ bitand flags value <> 0 <->
  exists n, 0 <= n < 32 /\ value mod 2 ^ 32 = 2 ^ n /\ Z.testbit flags n = true.
Proof.
  intros Hsafe.
  destruct (Z.eq_dec value (- 2 ^ 53)) as [->|Hlow].
  { split.
    - intros [_ Hshare]. exfalso. apply Hshare. unfold bitand.
      change (toInt32 (- 2 ^ 53)) with 0. apply Z.land_0_r.
    - intros (n & Hn & Hpow & _). exfalso.
      change ((- 2 ^ 53) mod 2 ^ 32) with 0 in Hpow.
      pose proof (Z.pow_pos_nonneg 2 n ltac:(lia) ltac:(lia)). lia. }
  assert (Hminus : subtract value 1 = value - 1).
  { unfold subtract. apply roundToDouble_safe.
    change (2 ^ 53) with 9007199254740992 in *. lia. }
  clear Hsafe Hlow.
  unfold isSingleBit. rewrite Hminus.
  rewrite andb_true_iff, negb_true_iff, Z.eqb_neq, Z.eqb_eq.
  rewrite !bitand_zero_mod.
  assert (Hrange : 0 <= value mod 2 ^ 32 < 2 ^ 32) by (apply Z.mod_pos_bound; lia).
  split.
  - intros [[Hne Hsingle] Hshare].
    assert (Hpos : 0 < value mod 2 ^ 32).
    { destruct (Z.eq_dec (value mod 2 ^ 32) 0) as [Hz|]; [|lia].
      rewrite Hz, Z.land_0_r in Hshare. congruence. }
    assert (Hpred : (value - 1) mod 2 ^ 32 = value mod 2 ^ 32 - 1).
    { change (2 ^ 32) with 4294967296 in *. Z.div_mod_to_equations. lia. }
    rewrite Hpred in Hsingle.
    destruct (value mod 2 ^ 32) as [|u|u] eqn:Hu; [lia| |lia].
    destruct (land_pred_pow2 u Hsingle) as (n & Hn & Hpow).
    exists n. rewrite Hpow in *.
    assert (Hn32 : n < 32).
    { apply (Z.pow_lt_mono_r_iff 2); lia. }
    split; [lia|]. split; [reflexivity|].
    rewrite <- (Z.mod_pow2_bits_low flags 32 n Hn32).
    destruct (Z.testbit (flags mod 2 ^ 32) n) eqn:Hbit; [reflexivity|].
    apply land_pow2_testbit in Hbit; [congruence | exact Hn].
  - intros (n & Hn & Hpow & Hbit).
    assert (H2n : 0 < 2 ^ n) by (apply Z.pow_pos_nonneg; lia).
    assert (Hpred : (value - 1) mod 2 ^ 32 = 2 ^ n - 1).
    { rewrite <- Hpow. change (2 ^ 32) with 4294967296 in *.
      Z.div_mod_to_equations. lia. }
    rewrite Hpred, Hpow. split; [split|].
    + intros ->. rewrite Z.mod_0_l in Hpow by lia. lia.
    + replace (2 ^ n - 1) with (Z.ones n) by (rewrite Z.ones_equiv; lia).
      rewrite Z.land_ones by lia. apply Z.mod_same. lia.
    + intros Hzero. apply land_pow2_testbit in Hzero; [|lia].
      rewrite Z.mod_pow2_bits_low in Hzero by lia. congruence.
Qed.

(** X28. On constants that fit in 32 unsigned bits, [isSingleBit] picks
    exactly the powers of two. *)
Lemma isSingleBit_uint32 (value : Z) :
  0 <= value < 2 ^ 32 ->
  (isSingleBit value = true <-> exists n, 0 <= n < 32 /\ value = 2 ^ n).
Proof.
  intros Hrange. split.
  - intros Hsingle.
    destruct (Z.eq_dec value 0) as [->|Hne]; [discriminate|].
    assert (Hsafe : Z.abs value <= 2 ^ 53).
    { change (2 ^ 32) with 4294967296 in Hrange.
      change (2 ^ 53) with 9007199254740992. lia. }
    destruct (single_bit_selected value value Hsafe) as [Hsel _].
    destruct Hsel as (n & Hn & Hpow & _).
    + split; [exact Hsingle|]. rewrite bitand_zero_mod, Z.land_diag.
      rewrite Z.mod_small; lia.
    + exists n. rewrite Z.mod_small in Hpow by lia. split; assumption.
  - intros (n & Hn & ->).
    assert (Hsafe : Z.abs (2 ^ n) <= 2 ^ 53).
    { rewrite Z.abs_eq by (apply Z.pow_nonneg; lia).
      apply Z.pow_le_mono_r; lia. }
    apply (single_bit_selected (2 ^ n) (2 ^ n) Hsafe).
    exists n. split; [exact Hn|]. split; [apply Z.mod_small; lia|].
    rewrite Z.pow2_bits_eqb by lia. apply Z.eqb_refl.
Qed.

Lemma str_leb_total (a b : jsstring) : str_leb a b = true \/ str_leb b a = true.
Proof.
  revert b. induction a as [|x a IH]; intros [|y b]; cbn; auto.
  rewrite (N.compare_antisym x y).
  destruct (N.compare_spec x y); cbn; auto.
Qed.

Lemma str_leb_trans (a b c : jsstring) :
  str_leb a b = true -> str_leb b c = true -> str_leb a c = true.
Proof.
  revert b c. induction a as [|x a IH]; intros [|y b] [|z c]; cbn; auto;
    try discriminate.
  destruct (N.compare_spec x y), (N.compare_spec y z), (N.compare_spec x z);
    subst; auto; try discriminate; try lia.
  apply IH.
Qed.

Lemma str_leb_antisym (a b : jsstring) :
  str_leb a b = true -> str_leb b a = true -> a = b.
Proof.
  revert b. induction a as [|x a IH]; intros [|y b]; cbn; auto; try discriminate.
  rewrite (N.compare_antisym x y).
  destruct (N.compare_spec x y); cbn; try discriminate.
  subst. intros Hab Hba. f_equal. apply IH; assumption.
Qed.

Global Instance str_le_total : Total str_le.
Proof. intros a b. apply str_leb_total. Qed.

Global Instance str_le_transitive : Transitive str_le.
Proof. intros a b c. apply str_leb_trans. Qed.

Global Instance str_le_antisymm : AntiSymm (=) str_le.
Proof. intros a b. apply str_leb_antisym. Qed.

Lemma sortStrings_sorted (l : list jsstring) : StronglySorted str_le (sortStrings l).
Proof. apply StronglySorted_merge_sort; apply _. Qed.

Lemma sortStrings_elem (l : list jsstring) (x : jsstring) :
  x ∈ sortStrings l <-> x ∈ l.
Proof. unfold sortStrings. rewrite merge_sort_Permutation. reflexivity. Qed.

Lemma sortStrings_NoDup (l : list jsstring) : NoDup l -> NoDup (sortStrings l).
Proof. unfold sortStrings. rewrite merge_sort_Permutation. auto. Qed.

(** The sorted array does not depend on the order in which the names
    were gathered. *)
Lemma sortStrings_permutation (l1 l2 : list jsstring) :
  l1 ≡ₚ l2 -> sortStrings l1 = sortStrings l2.
Proof.
  intros Hperm. apply (Sorted_unique str_le).
  - apply Sorted_merge_sort; apply _.
  - apply Sorted_merge_sort; apply _.
  - unfold sortStrings. rewrite !merge_sort_Permutation. exact Hperm.
Qed.

Lemma set_add_elem (name x : jsstring) (names : list jsstring) :
  x ∈ set_add name names <-> x = name \/ x ∈ names.
Proof.
  unfold set_add. destruct (decide (name ∈ names)) as [Hin|Hnot].
  - split; [auto|]. intros [->|Hx]; assumption.
  - rewrite elem_of_app, list_elem_of_singleton. tauto.
Qed.

Lemma set_add_NoDup (name : jsstring) (names : list jsstring) :
  NoDup names -> NoDup (set_add name names).
Proof.
  intros Hnd. unfold set_add. destruct (decide (name ∈ names)) as [Hin|Hnot];
    [exact Hnd|].
  apply NoDup_app. split; [exact Hnd|]. split.
  - intros x Hx Hx'. apply list_elem_of_singleton in Hx'. subst. contradiction.
  - apply NoDup_singleton.
Qed.

Lemma flagStep_elem (flags : Z) (names : list jsstring)
    (entry : jsstring * JsValue) (x : jsstring) :
  x ∈ flagStep flags names entry <->
  x ∈ names \/ (x = entry.1 /\ selected flags entry).
Proof.
  unfold flagStep, selected. destruct entry as [name value]. cbn.
  destruct value as [v|s|b|]; try (split; [auto | intros [?|[_ (? & ? & _)]]; [auto|discriminate]]).
  destruct (isSingleBit v) eqn:Hsingle; cbn.
  - destruct (Z.eqb_spec (bitand flags v) 0) as [Hz|Hnz].
    + split; [auto|]. intros [?|[_ (v' & [= <-] & _ & Hne)]]; [auto | congruence].
    + rewrite set_add_elem. split.
      * intros [->|?]; [right | left]; eauto.
      * intros [?|[-> _]]; auto.
  - split; [auto|]. intros [?|[_ (v' & [= <-] & Hs & _)]]; [auto | congruence].
Qed.

Lemma foldl_flagStep_elem (flags : Z) (flagEnum : list (jsstring * JsValue))
    (names : list jsstring) (x : jsstring) :
  x ∈ foldl (flagStep flags) names flagEnum <->
  x ∈ names \/ exists entry, entry ∈ flagEnum /\ x = entry.1 /\ selected flags entry.
Proof.
  revert names. induction flagEnum as [|entry rest IH]; intros names; cbn.
  - split; [auto|]. intros [?|(e & He & _)]; [auto | inversion He].
  - rewrite IH, flagStep_elem. split.
    + intros [[?|[-> Hsel]]|(e & He & Hx & Hsel)].
      * auto.
      * right. exists entry. split; [left | auto].
      * right. exists e. split; [right; exact He | auto].
    + intros [?|(e & He & Hx & Hsel)]; [auto|].
      apply elem_of_cons in He as [->|He]; [left; right; auto|].
      right. exists e. auto.
Qed.

Lemma foldl_flagStep_NoDup (flags : Z) (flagEnum : list (jsstring * JsValue))
    (names : list jsstring) :
  NoDup names -> NoDup (foldl (flagStep flags) names flagEnum).
Proof.
  revert names. induction flagEnum as [|entry rest IH]; intros names Hnd;
    [exact Hnd|].
  cbn. apply IH. unfold flagStep.
  destruct (entry.2); try exact Hnd.
  destruct (negb (isSingleBit n)); [exact Hnd|].
  destruct (bitand flags n =? 0); [exact Hnd|]. apply set_add_NoDup, Hnd.
Qed.

Lemma bitand_0_l (value : Z) : bitand 0 value = 0.
Proof. unfold bitand. reflexivity. Qed.

(** C3 (as amended). For every bitmask and every enumeration object
    whose numeric constants are safe integers (at most [2^53] in
    absolute value), [collectFlagNames] returns exactly the names of the
    numeric constants whose low 32 bits are a single bit [2^n]
    ([0 <= n < 32]) that is set in the mask.  For every enumeration
    object the result is sorted and without repetition, and it is empty
    for a zero mask.  Names are told apart, values are not: every name
    of a selected bit is returned. *)
Theorem collectFlagNames_spec (flagEnum : list (jsstring * JsValue)) (flags : Z) :
  let names := collectFlagNames flagEnum flags in
  ((forall name value,
      (name, JNumber value) ∈ flagEnum -> Z.abs value <= 2 ^ 53) ->
   forall name,
     name ∈ names <->
     exists value n,
       (name, JNumber value) ∈ flagEnum /\
       0 <= n < 32 /\ value mod 2 ^ 32 = 2 ^ n /\ Z.testbit flags n = true) /\
  StronglySorted str_le names /\
  NoDup names /\
  collectFlagNames flagEnum 0 = [].
Proof.
  cbv zeta. unfold collectFlagNames. split; [|split; [|split]].
  - intros Hsafe name. split.
    + rewrite sortStrings_elem, foldl_flagStep_elem.
      intros [Hnil|([name' entryValue] & Hentry & Hname & value & Hvalue & Hsel)];
        [inversion Hnil|].
      cbn in Hname, Hvalue. subst.
      destruct (proj1 (single_bit_selected flags value (Hsafe _ _ Hentry)) Hsel)
        as (n & Hn).
      exists value, n. split; [exact Hentry | exact Hn].
    + intros (value & n & Hentry & Hn).
      rewrite sortStrings_elem, foldl_flagStep_elem. right.
      exists (name, JNumber value). split; [exact Hentry|]. split; [reflexivity|].
      exists value. split; [reflexivity|].
      apply (single_bit_selected flags value (Hsafe _ _ Hentry)). exists n. exact Hn.
  - apply sortStrings_sorted.
  - apply sortStrings_NoDup, foldl_flagStep_NoDup, NoDup_nil_2.
  - assert (Hnone : forall x, x ∉ foldl (flagStep 0) [] flagEnum).
    { intros x Hx. apply foldl_flagStep_elem in Hx
        as [Hx|(e & _ & _ & v & _ & _ & Hne)]; [inversion Hx|].
      apply Hne, bitand_0_l. }
    destruct (foldl (flagStep 0) [] flagEnum) as [|x l]; [reflexivity|].
    exfalso. apply (Hnone x). left.
Qed.

Lemma collectFlagNames_spec_witness :
  (forall name value,
     (name, JNumber value) ∈ SymbolFlags sampleEnums -> Z.abs value <= 2 ^ 53) /\
  str "Optional" ∈ collectFlagNames (SymbolFlags sampleEnums) (16777216 + 4).
Proof.
  assert (Hsafe : forall name value,
            (name, JNumber value) ∈ SymbolFlags sampleEnums ->
            Z.abs value <= 2 ^ 53).
  { intros name value Hin. apply list_elem_of_In in Hin. cbn in Hin.
    change (2 ^ 53) with 9007199254740992.
    repeat (destruct Hin as [[= <- <-]|Hin]; [lia|]). destruct Hin. }
  split; [exact Hsafe|].
  apply (proj1 (collectFlagNames_spec (SymbolFlags sampleEnums) (16777216 + 4))
           Hsafe).
  exists 16777216, 24. split.
  - apply list_elem_of_In. cbn. tauto.
  - split; [lia|]. split; reflexivity.
Defined.

(** With the mask of [Alias], the two names [Alias] and [AliasExcludes]
    of the bit 2097152 are both returned; and a constant that is not a
    power of two is returned when its low 32 bits are a single bit of
    the mask. *)
Lemma collectFlagNames_alias_counterexample :
  (let names := collectFlagNames (SymbolFlags sampleEnums) 2097152 in
   names = [str "Alias"; str "AliasExcludes"] /\
   str "Alias" <> str "AliasExcludes" /\
   (str "Alias", JNumber 2097152) ∈ SymbolFlags sampleEnums /\
   (str "AliasExcludes", JNumber 2097152) ∈ SymbolFlags sampleEnums) /\
  (collectFlagNames [(str "Top", JNumber (-2147483648))] (-2147483648)
   = [str "Top"] /\
   ~ exists n, -2147483648 = 2 ^ n).
Proof.
  split; [|split].
  - cbv zeta. split; [vm_compute; reflexivity|]. split; [discriminate|].
    split; apply list_elem_of_In; cbn; tauto.
  - vm_compute. reflexivity.
  - intros [n Hn]. pose proof (Z.pow_nonneg 2 n ltac:(lia)). lia.
Qed.

(** ** Line map and position queries *)

Lemma resolvePosition_position_inv E fuel sf file project line column r :
  resolvePosition E fuel sf (PositionQuery file project line column) = Some (Ok r) ->
  0 < line /\ 0 < column /\
  getPositionOfLineAndCharacter sf (Z.to_nat (line - 1)) (Z.to_nat (column - 1))
    = Ok (res_position r) /\
  res_line r = line /\ res_column r = column /\ res_matchedText r = [].
Proof.
  cbn. destruct (line <=? 0) eqn:Hl; cbn; [discriminate|].
  destruct (column <=? 0) eqn:Hc; cbn; [discriminate|].
  destruct (getPositionOfLineAndCharacter _ _ _) as [p|m]; cbn; [|discriminate].
  intros [= <-]. cbn. repeat split; lia.
Qed.

Lemma lineStartsFrom_sorted (n : nat) :
  forall (s : jsstring) (pos lineStart : nat),
    (length s <= n)%nat -> (lineStart <= pos)%nat ->
    StronglySorted lt (lineStartsFrom s pos lineStart) /\
    Forall (le lineStart) (lineStartsFrom s pos lineStart).
Proof.
  induction n as [n IH] using lt_wf_ind.
  intros s pos lineStart Hlen Hle.
  assert (Hcons : forall rest p',
             (length rest < n)%nat -> (pos < p')%nat ->
             StronglySorted lt (lineStart :: lineStartsFrom rest p' p') /\
             Forall (le lineStart) (lineStart :: lineStartsFrom rest p' p')).
  { intros rest p' Hrest Hp'.
    destruct (IH (length rest) Hrest rest p' p' (Nat.le_refl _) (Nat.le_refl _))
      as [Hs Hf].
    split.
    - constructor; [exact Hs|].
      eapply Forall_impl; [exact Hf|]. cbn. intros x Hx. lia.
    - constructor; [lia|].
      eapply Forall_impl; [exact Hf|]. cbn. intros x Hx. lia. }
  destruct s as [|ch rest]; cbn [lineStartsFrom].
  - split; repeat constructor.
  - cbn in Hlen. destruct (ch =? 13)%N.
    + destruct rest as [|ch2 rest2].
      * apply Hcons; cbn; lia.
      * cbn in Hlen. destruct (ch2 =? 10)%N; apply Hcons; cbn; lia.
    + destruct (isLineBreak ch).
      * apply Hcons; lia.
      * apply (IH (length rest)); lia.
Qed.

Lemma getLineStarts_sorted (sf : SourceFile) :
  StronglySorted lt (getLineStarts sf).
Proof.
  apply (lineStartsFrom_sorted (length (text sf)) (text sf) 0%nat 0%nat); lia.
Qed.

Lemma sorted_nth_lt (l : list nat) :
  StronglySorted lt l ->
  forall i j, (i < j)%nat -> (j < length l)%nat -> (nth i l 0 < nth j l 0)%nat.
Proof.
  induction 1 as [|a l Hs IH Hall]; intros i j Hij Hj; [cbn in Hj; lia|].
  destruct j as [|j]; [lia|]. cbn in Hj. cbn [nth].
  destruct i as [|i].
  - rewrite Forall_forall in Hall. apply Hall, list_elem_of_In, nth_In. lia.
  - apply IH; lia.
Qed.

Lemma computeLineOfPosition_spec (l : list nat) :
  StronglySorted lt l ->
  forall i p,
    (i < length l)%nat -> (nth i l 0 <= p)%nat ->
    ((S i < length l)%nat -> (p < nth (S i) l 0)%nat) ->
    computeLineOfPosition l p = i.
Proof.
  induction 1 as [|a l Hs IH Hall]; intros i p Hi Hlow Hhigh; [cbn in Hi; lia|].
  destruct l as [|next l'].
  - cbn in Hi. cbn. lia.
  - cbn [computeLineOfPosition]. destruct i as [|i].
    + cbn in Hhigh. destruct (Nat.leb_spec next p); [|reflexivity].
      cbn in Hhigh. specialize (Hhigh ltac:(lia)). lia.
    + cbn [nth] in Hlow. cbn [length] in Hi.
      assert (Hnext : (next <= p)%nat).
      { destruct i as [|i]; [exact Hlow|].
        pose proof (sorted_nth_lt (next :: l') Hs 0%nat (S i) ltac:(lia) ltac:(cbn in *; lia)).
        cbn [nth] in *. lia. }
      destruct (Nat.leb_spec next p); [|lia]. f_equal.
      apply IH; [cbn in *; lia | exact Hlow |].
      intros Hlt. apply Hhigh. cbn in *. lia.
Qed.

Lemma getPosition_round_trip (sf : SourceFile) (line character res : nat) :
  getPositionOfLineAndCharacter sf line character = Ok res ->
  getLineAndCharacterOfPosition sf res = (line, character).
Proof.
  unfold getPositionOfLineAndCharacter, getLineAndCharacterOfPosition.
  pose proof (getLineStarts_sorted sf) as Hsorted.
  set (l := getLineStarts sf) in *.
  destruct (Nat.leb_spec (length l) line) as [|Hline]; [discriminate|].
  assert (Hcompute : forall res',
             res' = (nth line l 0 + character)%nat ->
             ((S line < length l)%nat -> (res' < nth (S line) l 0)%nat) ->
             (computeLineOfPosition l res', (res' - nth (computeLineOfPosition l res') l 0)%nat)
             = (line, character)).
  { intros res' -> Hhigh.
    rewrite (computeLineOfPosition_spec l Hsorted line); [f_equal; lia | lia | lia | exact Hhigh]. }
  destruct (Nat.ltb_spec line (length l - 1)).
  - destruct (Nat.ltb_spec (nth line l 0 + character)%nat (nth (line + 1) l 0)%nat);
      [|discriminate].
    intros [= <-]. apply Hcompute; [reflexivity|].
    intros _. replace (S line) with (line + 1)%nat by lia. assumption.
  - destruct (Nat.leb_spec (nth line l 0 + character)%nat (length (text sf)));
      [|discriminate].
    intros [= <-]. apply Hcompute; [reflexivity | lia].
Qed.

Lemma getPosition_within_bounds (sf : SourceFile) (line character : nat) :
  (line < length (getLineStarts sf))%nat ->
  (nth line (getLineStarts sf) 0 + character <= lastOffsetOfLine sf line)%nat ->
  getPositionOfLineAndCharacter sf line character
  = Ok (nth line (getLineStarts sf) 0 + character)%nat.
Proof.
  unfold getPositionOfLineAndCharacter, lastOffsetOfLine.
  pose proof (getLineStarts_sorted sf) as Hsorted.
  set (l := getLineStarts sf) in *. intros Hline Hres.
  destruct (Nat.leb_spec (length l) line); [lia|].
  destruct (Nat.ltb_spec (S line) (length l)).
  - pose proof (sorted_nth_lt l Hsorted line (S line) ltac:(lia) ltac:(lia)).
    destruct (Nat.ltb_spec line (length l - 1)); [|lia].
    replace (line + 1)%nat with (S line) by lia.
    destruct (Nat.ltb_spec (nth line l 0 + character)%nat (nth (S line) l 0)%nat);
      [reflexivity | lia].
  - destruct (Nat.ltb_spec line (length l - 1)); [lia|].
    destruct (Nat.leb_spec (nth line l 0 + character)%nat (length (text sf)));
      [reflexivity | lia].
Qed.

(** C6. A position query whose line exists and whose column lies on that
    line resolves, and the line map sends the resolved offset back to the
    line and column of the query. *)
Theorem resolvePosition_round_trip (E : RegExpEngine) (fuel : nat)
    (sf : SourceFile) (file : jsstring) (project : option jsstring)
    (line column : Z) :
  withinFileBounds sf line column ->
  exists r,
    resolvePosition E fuel sf (PositionQuery file project line column)
    = Some (Ok r) /\
    (let lc := getLineAndCharacterOfPosition sf (res_position r) in
     Z.of_nat lc.1 + 1 = line /\ Z.of_nat lc.2 + 1 = column) /\
    res_line r = line /\ res_column r = column.
Proof.
  intros (Hline & Hcolumn & Hlast).
  pose proof (getPosition_within_bounds sf (Z.to_nat (line - 1))
                (Z.to_nat (column - 1)) ltac:(lia) ltac:(lia)) as Hpos.
  exists {| res_position :=
              (nth (Z.to_nat (line - 1)) (getLineStarts sf) 0
               + Z.to_nat (column - 1))%nat;
            res_line := line; res_column := column; res_matchedText := [] |}.
  split.
  - cbn. destruct (Z.leb_spec line 0); [lia|].
    destruct (Z.leb_spec column 0); [lia|]. cbn.
    rewrite Hpos. reflexivity.
  - cbn [res_position res_line res_column].
    rewrite (getPosition_round_trip _ _ _ _ Hpos). cbn.
    repeat split; lia.
Qed.

Lemma resolvePosition_round_trip_witness :
  exists r,
    resolvePosition sampleEngine 0 twoLineFile
      (PositionQuery (str "/work/lines.ts") None 2 2) = Some (Ok r) /\
    res_position r = 5%nat /\
    getLineAndCharacterOfPosition twoLineFile (res_position r) = (1%nat, 1%nat).
Proof.
  destruct (resolvePosition_round_trip sampleEngine 0 twoLineFile
              (str "/work/lines.ts") None 2 2) as (r & Hr & _ & _).
  - unfold withinFileBounds.
    change (getLineStarts twoLineFile) with [0%nat; 4%nat].
    change (lastOffsetOfLine twoLineFile (Z.to_nat (2 - 1))) with 6%nat.
    change (Z.to_nat (2 - 1)) with 1%nat. cbn. lia.
  - exists r. split; [exact Hr|].
    cbn in Hr. injection Hr as <-. split; reflexivity.
Defined.

(** A position query that resolves was within the bounds of the file. *)
Lemma resolvePosition_ok_within_bounds (E : RegExpEngine) (fuel : nat)
    (sf : SourceFile) (file : jsstring) (project : option jsstring)
    (line column : Z) (r : QueryResolution) :
  resolvePosition E fuel sf (PositionQuery file project line column) = Some (Ok r) ->
  withinFileBounds sf line column.
Proof.
  intros Hr. apply resolvePosition_position_inv in Hr as (Hl & Hc & Hpos & _).
  unfold withinFileBounds, lastOffsetOfLine.
  unfold getPositionOfLineAndCharacter in Hpos.
  pose proof (getLineStarts_sorted sf) as Hsorted.
  set (l := getLineStarts sf) in *.
  set (i := Z.to_nat (line - 1)) in *.
  destruct (Nat.leb_spec (length l) i); [discriminate|].
  split; [lia|]. split; [lia|].
  destruct (Nat.ltb_spec i (length l - 1)).
  - replace (i + 1)%nat with (S i) in Hpos by lia.
    destruct (Nat.ltb_spec (nth i l 0 + Z.to_nat (column - 1))%nat (nth (S i) l 0)%nat);
      [|discriminate].
    destruct (Nat.ltb_spec (S i) (length l)); lia.
  - destruct (Nat.leb_spec (nth i l 0 + Z.to_nat (column - 1))%nat (length (text sf)));
      [|discriminate].
    destruct (Nat.ltb_spec (S i) (length l)); lia.
Qed.

(** ** Pattern queries *)

Lemma includeGlobalFlag_spec (flags : jsstring) :
  includes (includeGlobalFlag flags) (str "g") = true /\
  (includes flags (str "g") = true -> includeGlobalFlag flags = flags) /\
  (includes flags (str "g") = false -> includeGlobalFlag flags = flags ++ str "g").
Proof.
  unfold includeGlobalFlag. destruct (includes flags (str "g")) eqn:Hg.
  - split; [exact Hg|]. split; [reflexivity | discriminate].
  - split; [apply includes_app_r, includes_refl|]. split; [discriminate | reflexivity].
Qed.

(** Enough fuel for the reference enumeration: once the search index is
    past the end of the text the list is over. *)
Lemma matchesFrom_fuel (E : RegExpEngine) (regex flags s : jsstring) :
  engineSound E ->
  forall fuel1 fuel2 from,
    (length s + 1 - from <= fuel1)%nat -> (length s + 1 - from <= fuel2)%nat ->
    matchesFrom E regex flags s fuel1 from = matchesFrom E regex flags s fuel2 from.
Proof.
  intros Hsound. induction fuel1 as [|fuel1 IH]; intros fuel2 from H1 H2.
  - destruct fuel2 as [|fuel2]; [reflexivity|]. cbn [matchesFrom].
    destruct (Nat.ltb_spec (length s) from); [reflexivity | lia].
  - destruct fuel2 as [|fuel2]; cbn [matchesFrom].
    + destruct (Nat.ltb_spec (length s) from); [reflexivity | lia].
    + destruct (Nat.ltb_spec (length s) from); [reflexivity|].
      destruct (regexpMatch E regex flags s from) as [[b e]|] eqn:Hm; [|reflexivity].
      apply Hsound in Hm. f_equal.
      destruct (Nat.eqb_spec e b); apply IH; lia.
Qed.

Lemma searchLoop_step E sf regex matchIndex fuel matcher idx :
  searchLoop E sf regex matchIndex (S fuel) matcher idx =
  match exec E matcher (getFullText sf) with
  | (None, _) => Some (Throw (noMatchMessage regex matchIndex sf))
  | (Some m, matcher') =>
      if idx =? matchIndex then
        let position := index m in
        let lc := getLineAndCharacterOfPosition sf position in
        Some (Ok {| res_position := position;
                    res_line := Z.of_nat lc.1 + 1;
                    res_column := Z.of_nat lc.2 + 1;
                    res_matchedText := matched m |})
      else if negb (global matcher')
      then Some (Throw (noMatchMessage regex matchIndex sf))
      else searchLoop E sf regex matchIndex fuel matcher' (idx + 1)
  end.
Proof. reflexivity. Qed.

Lemma matchesFrom_step E regex flags s fuel from :
  matchesFrom E regex flags s (S fuel) from =
  if (length s <? from)%nat then []
  else
    match regexpMatch E regex flags s from with
    | None => []
    | Some (b, e) =>
        (b, e) :: matchesFrom E regex flags s fuel
                    (if (e =? b)%nat then S e else e)
    end.
Proof. reflexivity. Qed.

Section SearchLoop.
Context (E : RegExpEngine) (sf : SourceFile) (regex flags : jsstring).
Hypothesis Hglobal : includes flags (str "g") = true.

(** As long as the matches passed over are not empty, the loop walks
    the reference enumeration. *)
Lemma searchLoop_matches (j : nat) :
  forall fuelM from idx,
    (j < fuelM)%nat ->
    (forall i b e, (i < j)%nat ->
       matchesFrom E regex flags (text sf) fuelM from !! i = Some (b, e) ->
       (b < e)%nat) ->
    searchLoop E sf regex (idx + Z.of_nat j) (S j)
      {| source := regex; reFlags := flags; lastIndex := from |} idx
    = Some match matchesFrom E regex flags (text sf) fuelM from !! j with
           | Some (b, e) => Ok (resolutionAt sf b e)
           | None => Throw (noMatchMessage regex (idx + Z.of_nat j) sf)
           end.
Proof.
  assert (Hexec : forall from,
             exec E {| source := regex; reFlags := flags; lastIndex := from |}
               (text sf)
             = if (length (text sf) <? from)%nat
               then (None, {| source := regex; reFlags := flags; lastIndex := 0 |})
               else match regexpMatch E regex flags (text sf) from with
                    | None =>
                        (None, {| source := regex; reFlags := flags; lastIndex := 0 |})
                    | Some (b, e) =>
                        (Some {| index := b; matched := slice (text sf) b e |},
                         {| source := regex; reFlags := flags; lastIndex := e |})
                    end).
  { intros from. unfold exec, global, setLastIndex. cbn [source reFlags lastIndex].
    rewrite Hglobal. reflexivity. }
  induction j as [|j IH]; intros fuelM from idx Hfuel Hnonempty;
    (destruct fuelM as [|fuelM]; [lia|]);
    rewrite searchLoop_step, matchesFrom_step; unfold getFullText;
    rewrite Hexec;
    (destruct (Nat.ltb_spec (length (text sf)) from); [reflexivity|]);
    (destruct (regexpMatch E regex flags (text sf) from) as [[b e]|] eqn:Hm;
     [|reflexivity]); cbn [index matched].
  - rewrite Z.add_0_r, Z.eqb_refl. reflexivity.
  - destruct (Z.eqb_spec idx (idx + Z.of_nat (S j))); [lia|].
    unfold global; cbn [reFlags]. rewrite Hglobal. cbn [negb].
    rewrite matchesFrom_step in Hnonempty.
    destruct (Nat.ltb_spec (length (text sf)) from) in Hnonempty; [lia|].
    rewrite Hm in Hnonempty.
    assert (Hbe : (b < e)%nat) by (apply (Hnonempty 0%nat b e); [lia | reflexivity]).
    destruct (Nat.eqb_spec e b); [lia|].
    replace (idx + Z.of_nat (S j)) with (idx + 1 + Z.of_nat j) by lia.
    rewrite (IH fuelM e (idx + 1)); [reflexivity | lia |].
    intros i b' e' Hi Hlook. apply (Hnonempty (S i) b' e'); [lia | exact Hlook].
Qed.
End SearchLoop.

(** X12. For a sound engine and an accepted pattern, when the matches
    before the requested one are not empty, index [k] resolves to the
    start, the line and column, and the text of the [k+1]-th
    non-overlapping match, and fails with the no-match message when
    there are fewer than [k+1] matches. *)
Lemma resolvePosition_pattern_nonempty (E : RegExpEngine) (sf : SourceFile)
    (file : jsstring) (project : option jsstring) (regex : jsstring)
    (regexFlags : option jsstring) (k : nat) :
  engineSound E ->
  let flags := includeGlobalFlag (default [] regexFlags) in
  let ms := nonOverlappingMatches E regex flags (text sf) in
  regexpValid E regex flags = true ->
  (forall i b e, (i < k)%nat -> ms !! i = Some (b, e) -> (b < e)%nat) ->
  resolvePosition E (S k) sf
    (RegexQuery file project regex regexFlags (Some (Z.of_nat k)))
  = Some match ms !! k with
         | Some (b, e) => Ok (resolutionAt sf b e)
         | None => Throw (noMatchMessage regex (Z.of_nat k) sf)
         end.
Proof.
  intros Hsound flags ms Hvalid Hnonempty.
  destruct (includeGlobalFlag_spec (default [] regexFlags)) as (Hg & _).
  fold flags in Hg.
  assert (Hms : ms = matchesFrom E regex flags (text sf)
                       (S (Nat.max k (length (text sf)))) 0).
  { apply matchesFrom_fuel; [exact Hsound | lia | lia]. }
  cbn [resolvePosition default]. fold flags. rewrite Hvalid. cbn [negb].
  rewrite Hms in *.
  apply (searchLoop_matches E sf regex flags Hg k _ 0%nat 0); [lia | exact Hnonempty].
Qed.

Lemma matchHere_length (atoms : list Atom) :
  forall s n, matchHere atoms s = Some n -> (n <= length s)%nat.
Proof.
  induction atoms as [|[c|c] more IH]; intros s n.
  - cbn. intros [= <-]. lia.
  - destruct s as [|x s]; cbn; [discriminate|].
    destruct (x =? c)%N; [|discriminate].
    destruct (matchHere more s) as [m|] eqn:Hm; cbn; [|discriminate].
    intros [= <-]. apply IH in Hm. lia.
  - revert n. induction s as [|x s IHs]; intros n.
    + cbn. intros Hm. apply IH in Hm. exact Hm.
    + cbn [matchHere]. destruct (x =? c)%N.
      * change ((fix star (s0 : jsstring) : option nat :=
                   match s0 with
                   | [] => matchHere more []
                   | x0 :: s' =>
                       if (x0 =? c)%N
                       then match star s' with
                            | Some n0 => Some (S n0)
                            | None => matchHere more s0
                            end
                       else matchHere more s0
                   end) s) with (matchHere (Star c :: more) s).
        destruct (matchHere (Star c :: more) s) as [m|] eqn:Hm.
        -- intros [= <-]. specialize (IHs m eq_refl). cbn. lia.
        -- intros Hn. apply IH in Hn. exact Hn.
      * intros Hn. apply IH in Hn. exact Hn.
Qed.

Lemma searchFrom_sound (atoms : list Atom) :
  forall s from offset b e,
    searchFrom atoms s from offset = Some (b, e) ->
    (from <= b /\ offset <= b /\ b <= e /\ e <= offset + length s)%nat.
Proof.
  induction s as [|x s IH]; intros from offset b e; cbn [searchFrom].
  - destruct (Nat.ltb_spec offset from); [discriminate|].
    destruct (matchHere atoms []) as [n|] eqn:Hm; [|discriminate].
    intros [= <- <-]. apply matchHere_length in Hm. cbn in *. lia.
  - destruct (Nat.ltb_spec offset from).
    + intros Hs. apply IH in Hs. cbn. lia.
    + destruct (matchHere atoms (x :: s)) as [n|] eqn:Hm.
      * intros [= <- <-]. apply matchHere_length in Hm. cbn in *. lia.
      * intros Hs. apply IH in Hs. cbn. lia.
Qed.

Lemma sampleEngine_sound : engineSound sampleEngine.
Proof.
  intros regex flags s from b e. unfold sampleEngine. cbn [regexpMatch].
  destruct (Nat.ltb_spec (length s) from); [discriminate|].
  destruct (parsePattern regex) as [atoms|]; [|discriminate].
  destruct (includes flags (str "y")).
  - destruct (matchHere atoms (drop from s)) as [n|] eqn:Hm; cbn; [|discriminate].
    intros [= <- <-]. apply matchHere_length in Hm.
    rewrite length_drop in Hm. lia.
  - intros Hs. apply searchFrom_sound in Hs. lia.
Qed.

(** An instance: the second [x] of [axx]. *)
Lemma resolvePosition_pattern_second_x :
  resolvePosition sampleEngine 2 patternFile
    (RegexQuery (str "/work/pattern.ts") None (str "x") None (Some 1))
  = Some (Ok {| res_position := 2; res_line := 1; res_column := 3;
                res_matchedText := str "x" |}).
Proof.
  change (Some 1) with (Some (Z.of_nat 1)).
  rewrite (resolvePosition_pattern_nonempty sampleEngine patternFile
             (str "/work/pattern.ts") None (str "x") None 1 sampleEngine_sound).
  - vm_compute. reflexivity.
  - reflexivity.
  - intros i b e Hi. destruct i as [|i]; [|lia].
    vm_compute. intros [= <- <-]. lia.
Defined.

(** C1, at a failing input. In the text [axx] the pattern [x*] has the
    non-overlapping matches "" at 0, "xx" at 1 and "" at 3.  The global
    flag is added, and both index 1 and index 3 resolve to offset 0 with
    an empty matched text: after the empty match at 0 the search starts
    at 0 again. *)
Theorem resolvePosition_empty_match_evaluation :
  let query k :=
    RegexQuery (str "/work/pattern.ts") None (str "x*") None (Some k) in
  let stuck :=
    {| res_position := 0; res_line := 1; res_column := 1;
       res_matchedText := [] |} in
  includeGlobalFlag [] = str "g" /\
  nonOverlappingMatches sampleEngine (str "x*") (str "g") (text patternFile)
  = [(0, 0); (1, 3); (3, 3)]%nat /\
  resolvePosition sampleEngine 10 patternFile (query 0) = Some (Ok stuck) /\
  resolvePosition sampleEngine 10 patternFile (query 1) = Some (Ok stuck) /\
  resolvePosition sampleEngine 10 patternFile (query 3) = Some (Ok stuck).
Proof. cbv zeta. repeat split; vm_compute; reflexivity. Qed.

(** ** Node location *)

Lemma Node_ind_children (P : Node -> Prop) :
  (forall k fullStart start end_ cs,
     Forall P cs -> P (mkNode k fullStart start end_ cs)) ->
  forall n, P n.
Proof.
  intros Hstep. fix IH 1. intros [k fullStart start end_ cs].
  apply Hstep. induction cs as [|c cs IHcs]; constructor; [apply IH | exact IHcs].
Qed.

Lemma span_tests (n : Node) (p : nat) :
  ((p <? getFullStart n)%nat || (getEnd n <? p)%nat) = negb (fullSpanContains n p).
Proof.
  unfold fullSpanContains.
  destruct (Nat.ltb_spec p (getFullStart n)), (Nat.ltb_spec (getEnd n) p),
    (Nat.leb_spec (getFullStart n) p), (Nat.leb_spec p (getEnd n));
    cbn; try reflexivity; lia.
Qed.

Lemma candidates_unfold (p : nat) (n : Node) :
  candidates p n =
  if fullSpanContains n p
  then (if tokenSpanContains n p then [n] else [])
       ++ concat (map (candidates p) (children n))
  else [].
Proof.
  destruct n as [k fullStart start end_ cs].
  change (candidates p (mkNode k fullStart start end_ cs))
    with (if (p <? fullStart)%nat || (end_ <? p)%nat then []
          else (if (start <=? p)%nat && (p <=? end_)%nat
                then [mkNode k fullStart start end_ cs] else [])
               ++ concat (map (candidates p) cs)).
  pose proof (span_tests (mkNode k fullStart start end_ cs) p) as Hs.
  cbn [getFullStart getEnd] in Hs. rewrite Hs.
  destruct (fullSpanContains _ p); reflexivity.
Qed.

Lemma visit_unfold (p : nat) (n best : Node) :
  visit p n best =
  if fullSpanContains n p
  then fold_left (fun b c => visit p c b) (children n)
         (if tokenSpanContains n p then n else best)
  else best.
Proof.
  destruct n as [k fullStart start end_ cs].
  change (visit p (mkNode k fullStart start end_ cs) best)
    with (if (p <? fullStart)%nat || (end_ <? p)%nat then best
          else fold_left (fun b c => visit p c b) cs
                 (if (start <=? p)%nat && (p <=? end_)%nat
                  then mkNode k fullStart start end_ cs else best)).
  pose proof (span_tests (mkNode k fullStart start end_ cs) p) as Hs.
  cbn [getFullStart getEnd] in Hs. rewrite Hs.
  destruct (fullSpanContains _ p); reflexivity.
Qed.

(** The threaded [bestNode] ends as the last node assigned, if any. *)
Lemma visit_last (p : nat) (n : Node) :
  forall best, visit p n best = default best (last (candidates p n)).
Proof.
  induction n as [k fullStart start end_ cs IH] using Node_ind_children.
  intros best. rewrite visit_unfold, candidates_unfold.
  destruct (fullSpanContains _ p); [|reflexivity].
  cbn [children].
  set (self := mkNode k fullStart start end_ cs).
  assert (Hfold : forall b,
             fold_left (fun b c => visit p c b) cs b
             = default b (last (concat (map (candidates p) cs)))).
  { clear best. induction IH as [|c cs Hc _ IHcs]; intros b; [reflexivity|].
    cbn. rewrite IHcs, Hc, last_app.
    destruct (last (concat (map (candidates p) cs))); reflexivity. }
  rewrite Hfold, last_app.
  destruct (last (concat (map (candidates p) cs))); [reflexivity|].
  destruct (tokenSpanContains self p); reflexivity.
Qed.

Lemma elem_of_map {A B} (f : A -> B) (l : list A) (y : B) :
  y ∈ map f l <-> exists x, y = f x /\ x ∈ l.
Proof.
  rewrite list_elem_of_In, in_map_iff. split.
  - intros (x & <- & Hx). exists x. split; [reflexivity|]. apply list_elem_of_In, Hx.
  - intros (x & -> & Hx). exists x. split; [reflexivity|]. apply list_elem_of_In, Hx.
Qed.

Lemma elem_of_concat {A} (ls : list (list A)) (x : A) :
  x ∈ concat ls <-> exists l, x ∈ l /\ l ∈ ls.
Proof.
  rewrite list_elem_of_In, in_concat. split.
  - intros (l & Hl & Hx). exists l. split; apply list_elem_of_In; assumption.
  - intros (l & Hx & Hl). exists l. split; apply list_elem_of_In; assumption.
Qed.

Lemma candidates_entered (p : nat) (n d : Node) :
  d ∈ candidates p n <-> entered p n d /\ tokenSpanContains d p = true.
Proof.
  revert d. induction n as [k fullStart start end_ cs IH] using Node_ind_children.
  intros d. rewrite candidates_unfold. cbn [children].
  set (self := mkNode k fullStart start end_ cs).
  destruct (fullSpanContains self p) eqn:Hfull.
  - rewrite elem_of_app, elem_of_concat. split.
    + intros [Hself | (l & Hd & Hl)].
      * destruct (tokenSpanContains self p) eqn:Htok; [|inversion Hself].
        apply list_elem_of_singleton in Hself. subst d.
        split; [constructor; exact Hfull | exact Htok].
      * apply elem_of_map in Hl as (c & -> & Hc).
        rewrite Forall_forall in IH. apply (IH c Hc) in Hd as [Hent Htok].
        split; [|exact Htok]. eapply entered_child; [exact Hfull | exact Hc | exact Hent].
    + intros [Hent Htok]. inversion Hent as [n0 Hn0 | n0 c d0 Hn0 Hc Hcd]; subst.
      * left. rewrite Htok. apply list_elem_of_singleton. reflexivity.
      * right. exists (candidates p c). split.
        -- rewrite Forall_forall in IH. apply (IH c Hc). split; assumption.
        -- apply elem_of_map. exists c. split; [reflexivity | exact Hc].
  - split; [intros Hd; inversion Hd|].
    intros [Hent _]. inversion Hent; subst; congruence.
Qed.

Lemma concat_nil_inv {A} (ls : list (list A)) :
  concat ls = [] -> forall l, l ∈ ls -> l = [].
Proof.
  induction ls as [|x ls IH]; intros Hnil l Hl; [inversion Hl|].
  cbn in Hnil. apply app_eq_nil in Hnil as [Hx Hls].
  apply elem_of_cons in Hl as [->|Hl]; [exact Hx | apply IH; assumption].
Qed.

Lemma last_concat_inv {A} (ls : list (list A)) (x : A) :
  last (concat ls) = Some x -> exists l, l ∈ ls /\ last l = Some x.
Proof.
  induction ls as [|l ls IH]; cbn; [discriminate|].
  rewrite last_app. destruct (last (concat ls)) as [y|] eqn:Hlast.
  - intros [= ->]. destruct (IH eq_refl) as (l' & Hl' & Hx).
    exists l'. split; [right; exact Hl' | exact Hx].
  - intros Hx. exists l. split; [left | exact Hx].
Qed.

(** No node below the last candidate is a candidate. *)
Lemma candidates_last_below (p : nat) (n r : Node) :
  last (candidates p n) = Some r ->
  forall c, c ∈ children r -> candidates p c = [].
Proof.
  induction n as [k fullStart start end_ cs IH] using Node_ind_children.
  rewrite candidates_unfold. cbn [children].
  set (self := mkNode k fullStart start end_ cs).
  destruct (fullSpanContains self p); [|discriminate].
  rewrite last_app.
  destruct (last (concat (map (candidates p) cs))) as [y|] eqn:Hlast.
  - intros [= ->]. apply last_concat_inv in Hlast as (l & Hl & Hr).
    apply elem_of_map in Hl as (c & -> & Hc).
    rewrite Forall_forall in IH. apply (IH c Hc Hr).
  - intros Hself. destruct (tokenSpanContains self p); [|discriminate].
    injection Hself as <-. cbn [children]. intros c Hc.
    apply last_None in Hlast.
    apply (concat_nil_inv _ Hlast). apply elem_of_map.
    exists c. split; [reflexivity | exact Hc].
Qed.

(** C5 (as amended). For every tree and every offset the locator returns
    a node: the last one, in traversal order, of the nodes that are
    entered through full spans containing the offset (leading trivia
    included, end inclusive) and whose own span from its first token to
    its end contains the offset; the root when there is none.  Below the
    returned node no entered node has the offset in its token span: a
    containing child is preferred to its parent, and a node is returned
    when none of its descendants qualifies. *)
Theorem findClosestNode_spec (sf : SourceFile) (p : nat) :
  let r := findClosestNode sf p in
  r = default (rootNode sf) (last (candidates p (rootNode sf))) /\
  (r = rootNode sf \/
   (entered p (rootNode sf) r /\ tokenSpanContains r p = true)) /\
  (fullSpanContains r p = true ->
   forall c d, c ∈ children r -> entered p c d -> tokenSpanContains d p = false).
Proof.
  cbv zeta. unfold findClosestNode. rewrite visit_last.
  split; [reflexivity|].
  destruct (last (candidates p (rootNode sf))) as [r|] eqn:Hlast; cbn.
  - split.
    + right. apply candidates_entered. apply last_Some_elem_of, Hlast.
    + intros _ c d Hc Hent.
      pose proof (candidates_last_below _ _ _ Hlast c Hc) as Hnil.
      destruct (tokenSpanContains d p) eqn:Htok; [|reflexivity].
      assert (Hd : d ∈ candidates p c) by (apply candidates_entered; auto).
      rewrite Hnil in Hd. inversion Hd.
  - split; [left; reflexivity|].
    intros Hfull c d Hc Hent.
    apply last_None in Hlast. rewrite candidates_unfold, Hfull in Hlast.
    apply app_eq_nil in Hlast as [_ Hlast].
    assert (Hnil : candidates p c = []).
    { apply (concat_nil_inv _ Hlast). apply elem_of_map.
      exists c. split; [reflexivity | exact Hc]. }
    destruct (tokenSpanContains d p) eqn:Htok; [|reflexivity].
    assert (Hd : d ∈ candidates p c) by (apply candidates_entered; auto).
    rewrite Hnil in Hd. inversion Hd.
Qed.

Lemma findClosestNode_spec_witness :
  findClosestNode sampleFile 4 = identB /\
  (forall c d, c ∈ children identB -> entered 4 c d -> tokenSpanContains d 4 = false).
Proof.
  destruct (findClosestNode_spec sampleFile 4) as (Hr & _ & Hbelow).
  split.
  - rewrite Hr. reflexivity.
  - exact (Hbelow eq_refl).
Defined.

(** In [a;  b;] the offset 3 lies in the trivia before [b]: the root's
    span contains it, the second statement's full span contains it, and
    the locator still answers the root. *)
Lemma findClosestNode_trivia_counterexample :
  ~ (forall (sf : SourceFile) (p : nat),
       fullSpanContains (rootNode sf) p = true ->
       deepestContaining (rootNode sf) p (findClosestNode sf p)).
Proof.
  intros Hclaim.
  destruct (Hclaim sampleFile 3%nat eq_refl) as [_ Hdeep].
  specialize (Hdeep statementB).
  assert (Hin : statementB ∈ children (findClosestNode sampleFile 3)).
  { vm_compute. right. left. }
  apply Hdeep in Hin. vm_compute in Hin. discriminate.
Qed.

(** ** Declaration snippets *)

Lemma condenseSnippet_short (snippet : jsstring) (maxLength : nat) :
  (length (singleLineOf snippet) <= maxLength)%nat ->
  condenseSnippet snippet maxLength = singleLineOf snippet.
Proof.
  intros Hle. unfold condenseSnippet.
  destruct (Nat.leb_spec (length (singleLineOf snippet)) maxLength); [reflexivity|lia].
Qed.

Lemma condenseSnippet_long (snippet : jsstring) (maxLength : nat) :
  (maxLength < length (singleLineOf snippet))%nat ->
  condenseSnippet snippet maxLength
  = take maxLength (singleLineOf snippet) ++ truncationMarker /\
  length (condenseSnippet snippet maxLength) = (maxLength + 3)%nat.
Proof.
  intros Hlt. unfold condenseSnippet.
  destruct (Nat.leb_spec (length (singleLineOf snippet)) maxLength); [lia|].
  unfold slice. rewrite drop_0, Nat.sub_0_r. split; [reflexivity|].
  rewrite length_app, length_take. cbn. lia.
Qed.

Lemma replaceWhiteSpace_condensed (b : bool) (s : jsstring) :
  condensedFrom b s = true -> replaceWhiteSpace b s = s.
Proof.
  revert b. induction s as [|ch rest IH]; intros b; cbn; [reflexivity|].
  destruct (isWhiteSpace ch) eqn:Hws.
  - intros Hc. apply andb_prop in Hc as [Hc Hrest]. apply andb_prop in Hc as [Heq Hb].
    apply N.eqb_eq in Heq. subst ch. destruct b; [discriminate|].
    f_equal. apply IH, Hrest.
  - intros Hrest. f_equal. apply IH, Hrest.
Qed.

Lemma trimStart_no_space (ch : N) (s : jsstring) :
  isWhiteSpace ch = false -> trimStart (ch :: s) = ch :: s.
Proof. intros Hws. cbn. rewrite Hws. reflexivity. Qed.

Lemma condensedFrom_last (b : bool) (s : jsstring) :
  condensedFrom b s = true -> s <> [] ->
  exists ch front, s = front ++ [ch] /\ isWhiteSpace ch = false.
Proof.
  revert b. induction s as [|ch rest IH]; intros b Hc Hne; [congruence|].
  cbn in Hc. destruct rest as [|ch2 rest2].
  - exists ch, []. split; [reflexivity|].
    destruct (isWhiteSpace ch); [|reflexivity].
    cbn in Hc. rewrite andb_false_r in Hc. discriminate.
  - destruct (isWhiteSpace ch).
    + apply andb_prop in Hc as [_ Hrest].
      destruct (IH _ Hrest) as (l & front & -> & Hl); [discriminate|].
      exists l, (ch :: front). split; [reflexivity | exact Hl].
    + destruct (IH _ Hc) as (l & front & -> & Hl); [discriminate|].
      exists l, (ch :: front). split; [reflexivity | exact Hl].
Qed.

(** A condensed snippet is its own single-line form. *)
Lemma singleLineOf_condensed (s : jsstring) :
  condensed s = true -> singleLineOf s = s.
Proof.
  destruct s as [|ch rest]; [reflexivity|].
  unfold condensed. intros Hc. unfold singleLineOf.
  assert (Hfirst : isWhiteSpace ch = false).
  { cbn in Hc. destruct (isWhiteSpace ch); [|reflexivity].
    rewrite andb_false_r in Hc. discriminate. }
  assert (Hc' : condensedFrom false (ch :: rest) = true).
  { cbn in Hc |- *. rewrite Hfirst in Hc |- *. exact Hc. }
  rewrite (replaceWhiteSpace_condensed _ _ Hc').
  unfold trim. rewrite (trimStart_no_space _ _ Hfirst).
  destruct (condensedFrom_last _ _ Hc) as (l & front & Heq & Hl); [discriminate|].
  rewrite Heq. unfold trimEnd. rewrite reverse_app. cbn.
  rewrite Hl. rewrite <- (reverse_involutive (front ++ [l])).
  f_equal. rewrite reverse_app. reflexivity.
Qed.

(** What the claim holds of [condenseSnippet] apart from the marker: a
    snippet at or under the limit is returned in its single-line form
    (itself, when it is already condensed), a longer one is cut to the
    limit and the marker literal is appended once. *)
Lemma condenseSnippet_structure (snippet : jsstring) :
  ((length (singleLineOf snippet) <= defaultMaxLength)%nat ->
   condenseSnippet snippet defaultMaxLength = singleLineOf snippet) /\
  (condensed snippet = true -> (length snippet <= defaultMaxLength)%nat ->
   condenseSnippet snippet defaultMaxLength = snippet) /\
  ((defaultMaxLength < length (singleLineOf snippet))%nat ->
   condenseSnippet snippet defaultMaxLength
   = take defaultMaxLength (singleLineOf snippet) ++ truncationMarker).
Proof.
  split; [apply condenseSnippet_short|]. split.
  - intros Hc Hlen. rewrite condenseSnippet_short; rewrite (singleLineOf_condensed _ Hc);
      [reflexivity | exact Hlen].
  - intros Hlt. apply condenseSnippet_long, Hlt.
Qed.

(** C8, at a failing input. A declaration of 161 letters [a] is cut to
    160 letters followed by the three code units U+00E2 U+20AC U+00A6:
    the result has 163 code units, ends with U+00A6 and contains no
    ellipsis (U+2026). *)
Theorem condenseSnippet_marker_evaluation :
  let out := condenseSnippet (repeat 97%N 161) defaultMaxLength in
  out = repeat 97%N 160 ++ [226%N; 8364%N; 166%N] /\
  length out = 163%nat /\
  last out = Some 166%N /\
  ellipsis ∉ out.
Proof.
  assert (Hout : condenseSnippet (repeat 97%N 161) defaultMaxLength
                 = repeat 97%N 160 ++ [226%N; 8364%N; 166%N])
    by (vm_compute; reflexivity).
  cbv zeta. rewrite Hout. split; [reflexivity|]. split; [reflexivity|].
  split; [vm_compute; reflexivity|].
  apply (bool_decide_unpack _). vm_compute. exact I.
Qed.

(** ** Property optionality *)

Section Properties.
Context (K : TsEnums) (C : TypeChecker) (name : jsstring).





End Properties.



(** ** The assembled record *)

Section PickType.
Context (H : Host) (fuel : nat) (query : TypeQuery).
Context (ctx : ProgramContext) (sf : SourceFile) (r : QueryResolution).
Hypothesis Hexists : existsSync H (path_resolve H (queryFile query)) = true.
Hypothesis Hprogram :
  createProgramForFile H (path_resolve H (queryFile query)) (queryProject query)
  = Ok ctx.
Hypothesis Hfile : findSourceFile ctx (path_resolve H (queryFile query)) = Some sf.

Lemma pickType_resolved :
  resolvePosition (engine H) fuel sf query = Some (Ok r) ->
  pickType H fuel query
  = Some (Ok (assemble H ctx (path_resolve H (queryFile query)) sf r)).
Proof.
  intros Hr. unfold pickType. rewrite Hexists, Hprogram, Hfile, Hr. reflexivity.
Qed.

Lemma pickType_throws m :
  resolvePosition (engine H) fuel sf query = Some (Throw m) ->
  pickType H fuel query = Some (Throw m).
Proof.
  intros Hr. unfold pickType. rewrite Hexists, Hprogram, Hfile, Hr. reflexivity.
Qed.
End PickType.

(** C10. When the file is found, its program is built and the query
    resolves, [pickType] returns a record whether or not a symbol is
    found; if neither the checker nor the type gives a symbol for the
    located node, the record has no [symbol] and no declarations; and a
    record without [symbol] never has declarations. *)
Theorem pickType_symbol_absent (H : Host) (fuel : nat) (query : TypeQuery)
    (ctx : ProgramContext) (sf : SourceFile) (r : QueryResolution) :
  existsSync H (path_resolve H (queryFile query)) = true ->
  createProgramForFile H (path_resolve H (queryFile query)) (queryProject query)
    = Ok ctx ->
  findSourceFile ctx (path_resolve H (queryFile query)) = Some sf ->
  resolvePosition (engine H) fuel sf query = Some (Ok r) ->
  exists info,
    pickType H fuel query = Some (Ok info) /\
    (let node := findClosestNode sf (res_position r) in
     getSymbolAtLocation (checker ctx) node = None ->
     typeGetSymbol (checker ctx) (getTypeAtLocation (checker ctx) node) = None ->
     ti_symbol info = None /\ ti_declarations info = []) /\
    (ti_symbol info = None -> ti_declarations info = []).
Proof.
  intros He Hp Hf Hr. eexists. split.
  - eapply pickType_resolved; eassumption.
  - unfold assemble; cbn. split.
    + intros -> ->. split; reflexivity.
    + destruct (getSymbolAtLocation _ _); [discriminate|].
      destruct (typeGetSymbol _ _); [discriminate|]. reflexivity.
Qed.

Lemma pickType_symbol_absent_witness :
  exists info,
    pickType sampleHost 0 (PositionQuery (str "/work/sample.ts") None 1 1)
    = Some (Ok info) /\
    ti_symbol info = None /\ ti_declarations info = [].
Proof.
  destruct (pickType_symbol_absent sampleHost 0
              (PositionQuery (str "/work/sample.ts") None 1 1)
              sampleContext sampleFile
              {| res_position := 0; res_line := 1; res_column := 1;
                 res_matchedText := [] |})
    as (info & Hpick & Hnone & _);
    [reflexivity | reflexivity | reflexivity | reflexivity |].
  exists info. split; [exact Hpick|]. apply Hnone; reflexivity.
Defined.

(** ** Matched text of a position query *)

(** C2 (as amended). For a position query that resolves, the resolution
    carries an empty matched text, and the record returned by [pickType]
    carries as [matchedText] the source text of the located node. *)
Theorem pickType_position_matchedText (H : Host) (fuel : nat)
    (file : jsstring) (project : option jsstring) (line column : Z)
    (ctx : ProgramContext) (sf : SourceFile) (r : QueryResolution) :
  existsSync H (path_resolve H file) = true ->
  createProgramForFile H (path_resolve H file) project = Ok ctx ->
  findSourceFile ctx (path_resolve H file) = Some sf ->
  resolvePosition (engine H) fuel sf (PositionQuery file project line column)
    = Some (Ok r) ->
  res_matchedText r = [] /\
  exists info,
    pickType H fuel (PositionQuery file project line column) = Some (Ok info) /\
    ti_matchedText info = getText sf (findClosestNode sf (res_position r)).
Proof.
  intros He Hp Hf Hr.
  destruct (resolvePosition_position_inv _ _ _ _ _ _ _ _ Hr)
    as (_ & _ & _ & _ & _ & Hm).
  split; [exact Hm|]. eexists. split.
  - apply (pickType_resolved H fuel (PositionQuery file project line column)
             ctx sf r He Hp Hf Hr).
  - unfold assemble; cbn. rewrite Hm. reflexivity.
Qed.

Lemma pickType_position_matchedText_witness :
  exists info,
    pickType sampleHost 0 (PositionQuery (str "/work/sample.ts") None 1 5)
    = Some (Ok info) /\
    ti_matchedText info = str "b".
Proof.
  destruct (pickType_position_matchedText sampleHost 0
              (str "/work/sample.ts") None 1 5 sampleContext sampleFile
              {| res_position := 4; res_line := 1; res_column := 5;
                 res_matchedText := [] |})
    as (_ & info & Hpick & Htext);
    [reflexivity | reflexivity | reflexivity | reflexivity |].
  exists info. split; [exact Hpick | exact Htext].
Defined.

(** The query at line 1, column 1 of [a;  b;] succeeds and its record
    has the matched text [a], not the empty string. *)
Lemma pickType_position_matchedText_counterexample :
  exists info,
    pickType sampleHost 0 (PositionQuery (str "/work/sample.ts") None 1 1)
    = Some (Ok info) /\
    ti_matchedText info = str "a" /\
    ti_matchedText info <> [].
Proof.
  eexists. split; [reflexivity|]. split; [reflexivity|]. discriminate.
Qed.

(** ** Error messages *)

Lemma noMatchMessage_includes regex matchIndex sf :
  let m := noMatchMessage regex matchIndex sf in
  includes m regex = true /\
  includes m (showNumber matchIndex) = true /\
  includes m (fileName sf) = true.
Proof.
  unfold noMatchMessage. repeat split.
  - do 2 apply includes_app_r. apply includes_prefix.
  - do 5 apply includes_app_r. apply includes_prefix.
  - do 7 apply includes_app_r. apply includes_refl.
Qed.

Lemma searchLoop_throws E sf regex matchIndex fuel matcher idx m :
  searchLoop E sf regex matchIndex fuel matcher idx = Some (Throw m) ->
  m = noMatchMessage regex matchIndex sf.
Proof.
  revert matcher idx. induction fuel as [|fuel IH]; intros matcher idx; cbn;
    [discriminate|].
  destruct (exec E matcher (getFullText sf)) as [[found|] matcher'].
  - destruct (idx =? matchIndex); [discriminate|].
    destruct (negb (global matcher')); [congruence|]. apply IH.
  - congruence.
Qed.

(** C7 (as amended). With the file found and its program built: a
    position query with a non-positive line or column fails at once,
    before any search or lookup, with the fixed message "Line and column
    must be 1-based and positive", the same whatever the two values; a
    pattern query (of a pattern the runtime accepts, with a safe integer
    as index) whose search falls short fails with a message that
    contains the pattern, the requested index in decimal and the file
    name.  The failure of the resolution is the failure of [pickType]. *)
Theorem invalidQuery_messages (H : Host) (fuel : nat) (query : TypeQuery)
    (ctx : ProgramContext) (sf : SourceFile) :
  existsSync H (path_resolve H (queryFile query)) = true ->
  createProgramForFile H (path_resolve H (queryFile query)) (queryProject query)
    = Ok ctx ->
  findSourceFile ctx (path_resolve H (queryFile query)) = Some sf ->
  match query with
  | PositionQuery _ _ line column =>
      line <= 0 \/ column <= 0 ->
      resolvePosition (engine H) fuel sf query = Some (Throw positionMessage) /\
      pickType H fuel query = Some (Throw positionMessage)
  | RegexQuery _ _ regex regexFlags matchIndex =>
      forall m,
        regexpValid (engine H) regex (includeGlobalFlag (default [] regexFlags))
          = true ->
        Z.abs (default 0 matchIndex) <= 2 ^ 53 ->
        resolvePosition (engine H) fuel sf query = Some (Throw m) ->
        pickType H fuel query = Some (Throw m) /\
        m = noMatchMessage regex (default 0 matchIndex) sf /\
        includes m regex = true /\
        includes m (showNumber (default 0 matchIndex)) = true /\
        includes m (fileName sf) = true
  end.
Proof.
  intros He Hp Hf. destruct query as [file project line column
                                     |file project regex regexFlags matchIndex].
  - intros Hbad.
    assert (Hr : resolvePosition (engine H) fuel sf
                   (PositionQuery file project line column)
                 = Some (Throw positionMessage)).
    { cbn. destruct Hbad as [Hl|Hc].
      - apply Z.leb_le in Hl. rewrite Hl. reflexivity.
      - apply Z.leb_le in Hc. rewrite Hc, orb_true_r. reflexivity. }
    split; [exact Hr|].
    apply (pickType_throws H fuel _ ctx sf He Hp Hf _ Hr).
  - intros m Hvalid _ Hr. split.
    + apply (pickType_throws H fuel _ ctx sf He Hp Hf _ Hr).
    + cbn in Hr. rewrite Hvalid in Hr. cbn in Hr.
      apply searchLoop_throws in Hr. subst m.
      destruct (noMatchMessage_includes regex (default 0 matchIndex) sf)
        as (Hi1 & Hi2 & Hi3).
      split; [reflexivity|]. split; [|split]; assumption.
Qed.

Lemma invalidQuery_messages_witness :
  pickType sampleHost 0 (PositionQuery (str "/work/sample.ts") None 0 7)
    = Some (Throw positionMessage) /\
  Z.abs 1 <= 2 ^ 53 /\
  pickType sampleHost 5
    (RegexQuery (str "/work/pattern.ts") None (str "xx*") None (Some 1))
    = Some (Throw (noMatchMessage (str "xx*") 1 patternFile)).
Proof.
  assert (Hsafe : Z.abs 1 <= 2 ^ 53).
  { change (2 ^ 53) with 9007199254740992. lia. }
  split; [|split; [exact Hsafe|]].
  - apply (invalidQuery_messages sampleHost 0
             (PositionQuery (str "/work/sample.ts") None 0 7)
             sampleContext sampleFile); [reflexivity..|]. left; lia.
  - exact (proj1 (invalidQuery_messages sampleHost 5
             (RegexQuery (str "/work/pattern.ts") None (str "xx*") None (Some 1))
             sampleContext patternFile eq_refl eq_refl eq_refl
             _ eq_refl Hsafe eq_refl)).
Defined.

(** The position query at line 0, column 7 fails with a message that
    contains neither of the two supplied values. *)
Lemma invalidQuery_position_counterexample :
  exists m,
    pickType sampleHost 0 (PositionQuery (str "/work/sample.ts") None 0 7)
    = Some (Throw m) /\
    includes m (showNumber 0) = false /\
    includes m (showNumber 7) = false.
Proof. eexists. split; [reflexivity|]. split; reflexivity. Qed.

(** ** Output filters *)

(** C9. Whatever the option values, [applyOutputFilters] returns the
    record with each of the three lists either kept or, when its
    omission option is truthy, replaced by the empty list; the choice
    for one list does not depend on the options of the others, and
    every other field is the one of the input record. *)
Theorem applyOutputFilters_frame (result : TypeInfo)
    (values : gmap jsstring JsValue) :
  let out := applyOutputFilters result values in
  ti_diagnostics out =
    (if truthy (values !! str "omit-diagnostics") then []
     else ti_diagnostics result) /\
  ti_properties out =
    (if truthy (values !! str "omit-properties") then []
     else ti_properties result) /\
  ti_signatures out =
    (if truthy (values !! str "omit-signatures") then []
     else ti_signatures result) /\
  ti_file out = ti_file result /\
  ti_project out = ti_project result /\
  ti_position out = ti_position result /\
  ti_matchedText out = ti_matchedText result /\
  ti_nodeKind out = ti_nodeKind result /\
  ti_typeString out = ti_typeString result /\
  ti_typeFlags out = ti_typeFlags result /\
  ti_symbol out = ti_symbol result /\
  ti_declarations out = ti_declarations result.
Proof.
  unfold applyOutputFilters.
  destruct (truthy (values !! str "omit-diagnostics"));
    destruct (truthy (values !! str "omit-properties"));
    destruct (truthy (values !! str "omit-signatures"));
    cbn; repeat split.
Qed.

(** Omitting properties alone returns the input record with an empty
    property list. *)
Lemma applyOutputFilters_only_properties (result : TypeInfo) :
  applyOutputFilters result {[ str "omit-properties" := JBoolean true ]}
  = setProperties result [].
Proof. destruct result; reflexivity. Qed.

(** * Further properties *)

(** ** Signatures, declarations and diagnostics *)

Lemma lookup_map {A B : Type} (f : A -> B) (l : list A) (i : nat) :
  map f l !! i = f <$> l !! i.
Proof.
  revert i. induction l as [|x l IH]; intros [|i]; cbn; try reflexivity.
  apply IH.
Qed.

(** X1. The signature list is made of the first [limit] call signatures,
    in the order of the checker and each rendered at the node, followed
    by the first [limit] construct signatures, likewise; it has no other
    entry, so never more than [2 * limit]. *)
Theorem collectSignatures_calls_first (C : TypeChecker) (type : TsType C)
    (node : Node) (limit : nat) :
  let sigs := collectSignatures C type node limit in
  let calls := getSignaturesOfType C type Call in
  let constructs := getSignaturesOfType C type Construct in
  let shown := Nat.min limit (length calls) in
  length sigs = (shown + Nat.min limit (length constructs))%nat /\
  (length sigs <= 2 * limit)%nat /\
  (forall i, (i < shown)%nat ->
     sigs !! i
     = (fun signature =>
          {| si_kind := Call;
             si_signature := signatureToString C signature node |})
       <$> calls !! i) /\
  (forall j, (j < Nat.min limit (length constructs))%nat ->
     sigs !! (shown + j)%nat
     = (fun signature =>
          {| si_kind := Construct;
             si_signature := signatureToString C signature node |})
       <$> constructs !! j).
Proof.
  cbv zeta. unfold collectSignatures.
  rewrite length_app, !length_map, !length_take.
  split; [lia|]. split; [lia|]. split.
  - intros i Hi. rewrite lookup_app_l by (rewrite length_map, length_take; lia).
    rewrite lookup_map, lookup_take_lt by lia. reflexivity.
  - intros j Hj. rewrite lookup_app_r by (rewrite length_map, length_take; lia).
    rewrite length_map, length_take.
    replace (Nat.min limit (length (getSignaturesOfType C type Call)) + j
             - Nat.min limit (length (getSignaturesOfType C type Call)))%nat
      with j by lia.
    rewrite lookup_map, lookup_take_lt by lia. reflexivity.
Qed.

Lemma getLineAndCharacter_one_based (sf : SourceFile) (position : nat) :
  let lc := getLineAndCharacterOfPosition sf position in
  1 <= Z.of_nat lc.1 + 1 /\ 1 <= Z.of_nat lc.2 + 1.
Proof. cbv zeta. lia. Qed.

Lemma condenseSnippet_length (snippet : jsstring) (maxLength : nat) :
  (length (condenseSnippet snippet maxLength) <= maxLength + 3)%nat.
Proof.
  unfold condenseSnippet.
  destruct (Nat.leb_spec (length (singleLineOf snippet)) maxLength); [lia|].
  unfold slice. rewrite length_app, length_take. cbn. lia.
Qed.

(** X2. A symbol yields one declaration summary for each of its first
    [limit] declarations, in order (none when it has no declaration
    list).  The summary of a declaration has the normalized name of its
    file, the name of its syntax kind, the line and the column of its
    first token, both counted from 1, and its source text condensed to
    at most 163 code units. *)
Theorem collectDeclarations_bounded (K : TsEnums)
    (normalize : jsstring -> jsstring) (symbol : TsSymbol) (limit : nat) :
  let declarations := default [] (symDeclarations symbol) in
  let infos := collectDeclarations K normalize symbol limit in
  length infos = Nat.min limit (length declarations) /\
  forall i info,
    infos !! i = Some info ->
    exists declaration,
      declarations !! i = Some declaration /\
      (i < limit)%nat /\
      di_file info = normalize (fileName (declSource declaration)) /\
      di_kind info = SyntaxKind K (kind (declNode declaration)) /\
      1 <= di_line info /\ 1 <= di_column info /\
      getLineAndCharacterOfPosition (declSource declaration)
        (getStart (declNode declaration))
      = (Z.to_nat (di_line info - 1), Z.to_nat (di_column info - 1)) /\
      di_snippet info
      = condenseSnippet (getText (declSource declaration) (declNode declaration))
          defaultMaxLength /\
      (length (di_snippet info) <= 163)%nat.
Proof.
  cbv zeta. unfold collectDeclarations. split.
  - rewrite length_map, length_take. reflexivity.
  - intros i info. rewrite lookup_map.
    destruct (take limit (default [] (symDeclarations symbol)) !! i)
      as [declaration|] eqn:Hlookup; [|discriminate].
    apply lookup_take_Some in Hlookup as [Hlookup Hi].
    cbn [fmap option_fmap option_map]. intros [= <-].
    exists declaration. split; [exact Hlookup|]. split; [exact Hi|].
    cbn [di_file di_kind di_line di_column di_snippet].
    split; [reflexivity|]. split; [reflexivity|].
    split; [lia|]. split; [lia|]. split.
    + unfold getLineAndCharacterOfPosition. cbn [fst snd].
      rewrite !Z.add_simpl_r, !Nat2Z.id. reflexivity.
    + split; [reflexivity|].
      apply (condenseSnippet_length _ defaultMaxLength).
Qed.

(** X3. Every diagnostic of the compiler gives one summary, in order,
    with its category and message; a summary has a file, a line and a
    column (both at least 1) when the diagnostic has a file and a start,
    and none of the three otherwise. *)
Theorem collectDiagnostics_locations (normalize : jsstring -> jsstring)
    (diagnostics : list TsDiagnostic) :
  let infos := collectDiagnostics normalize diagnostics in
  map dg_category infos = map diagCategory diagnostics /\
  map dg_message infos = map diagMessage diagnostics /\
  Forall2 (fun diagnostic info =>
             match diagFile diagnostic, diagStart diagnostic with
             | Some file, Some start =>
                 dg_file info = Some (normalize (fileName file)) /\
                 exists line column,
                   dg_line info = Some line /\ dg_column info = Some column /\
                   1 <= line /\ 1 <= column /\
                   getLineAndCharacterOfPosition file start
                   = (Z.to_nat (line - 1), Z.to_nat (column - 1))
             | _, _ =>
                 dg_file info = None /\ dg_line info = None /\
                 dg_column info = None
             end) diagnostics infos.
Proof.
  cbv zeta. unfold collectDiagnostics.
  induction diagnostics as [|d ds (Hc & Hm & Hall)]; cbn [map].
  - repeat split. constructor.
  - split; [|split].
    + f_equal; [|exact Hc]. destruct (diagFile d), (diagStart d); reflexivity.
    + f_equal; [|exact Hm]. destruct (diagFile d), (diagStart d); reflexivity.
    + constructor; [|exact Hall].
      destruct (diagFile d) as [file|], (diagStart d) as [start|];
        cbn [dg_file dg_line dg_column]; try (repeat split; reflexivity).
      split; [reflexivity|].
      destruct (getLineAndCharacterOfPosition file start) as [l c] eqn:Hlc.
      exists (Z.of_nat l + 1), (Z.of_nat c + 1). cbn [fst snd].
      repeat split; try lia.
      replace (Z.of_nat l + 1 - 1) with (Z.of_nat l) by lia.
      replace (Z.of_nat c + 1 - 1) with (Z.of_nat c) by lia.
      rewrite !Nat2Z.id. reflexivity.
Qed.

(** ** Snippets in single-line form *)

Lemma replaceWhiteSpace_blanksSingle (inRun : bool) (s : jsstring) :
  blanksSingle inRun (replaceWhiteSpace inRun s) = true.
Proof.
  revert inRun. induction s as [|ch rest IH]; intros inRun; [reflexivity|].
  cbn [replaceWhiteSpace]. destruct (isWhiteSpace ch) eqn:Hws.
  - destruct inRun; [apply IH|].
    cbn [blanksSingle]. change (isWhiteSpace 32) with true.
    rewrite N.eqb_refl. cbn. apply IH.
  - cbn [blanksSingle]. rewrite Hws. apply IH.
Qed.

Lemma trimStart_blanksSingle (b : bool) (s : jsstring) :
  blanksSingle b s = true -> blanksSingle true (trimStart s) = true.
Proof.
  revert b. induction s as [|ch rest IH]; intros b; [reflexivity|].
  cbn [blanksSingle trimStart]. destruct (isWhiteSpace ch) eqn:Hws.
  - intros Hb. apply andb_prop in Hb as [_ Hrest]. apply (IH true Hrest).
  - intros Hrest. cbn [blanksSingle]. rewrite Hws. exact Hrest.
Qed.

Lemma trimEnd_snoc (s : jsstring) (ch : N) :
  trimEnd (s ++ [ch]) = if isWhiteSpace ch then trimEnd s else s ++ [ch].
Proof.
  unfold trimEnd. rewrite reverse_app, reverse_singleton.
  change ([ch] ++ reverse s) with (ch :: reverse s). cbn [trimStart].
  destruct (isWhiteSpace ch); [reflexivity|].
  rewrite reverse_cons, reverse_involutive. reflexivity.
Qed.

Lemma trimEnd_cons (ch : N) (s : jsstring) :
  trimEnd (ch :: s) =
  match trimEnd s with
  | [] => if isWhiteSpace ch then [] else [ch]
  | _ :: _ => ch :: trimEnd s
  end.
Proof.
  induction s as [|x s IH] using rev_ind.
  - change (trimEnd [ch]) with (trimEnd ([] ++ [ch])). rewrite trimEnd_snoc.
    reflexivity.
  - change (ch :: s ++ [x]) with ((ch :: s) ++ [x]). rewrite !trimEnd_snoc.
    destruct (isWhiteSpace x); [exact IH|].
    destruct s; reflexivity.
Qed.

Lemma trimEnd_condensed (b : bool) (s : jsstring) :
  blanksSingle b s = true ->
  trimEnd s = [] \/ condensedFrom b (trimEnd s) = true.
Proof.
  revert b. induction s as [|ch rest IH]; intros b; [left; reflexivity|].
  cbn [blanksSingle]. rewrite trimEnd_cons. destruct (isWhiteSpace ch) eqn:Hws.
  - intros Hb. apply andb_prop in Hb as [Hb Hrest]. apply andb_prop in Hb as [Heq Hnb].
    destruct (IH true Hrest) as [Hnil|Hcond].
    + rewrite Hnil. left. reflexivity.
    + destruct (trimEnd rest) as [|y tr] eqn:Htr; [left; reflexivity|].
      right. cbn [condensedFrom]. rewrite Hws, Heq, Hnb. exact Hcond.
  - intros Hrest. right. destruct (IH false Hrest) as [Hnil|Hcond].
    + rewrite Hnil. cbn [condensedFrom]. rewrite Hws. reflexivity.
    + destruct (trimEnd rest) as [|y tr] eqn:Htr.
      * cbn [condensedFrom]. rewrite Hws. reflexivity.
      * cbn [condensedFrom]. rewrite Hws. exact Hcond.
Qed.

Lemma singleLineOf_is_condensed (s : jsstring) : condensed (singleLineOf s) = true.
Proof.
  unfold singleLineOf, trim.
  pose proof (replaceWhiteSpace_blanksSingle false s) as Hb.
  apply trimStart_blanksSingle, trimEnd_condensed in Hb as [Hnil|Hcond].
  - rewrite Hnil. reflexivity.
  - unfold condensed. destruct (trimEnd _); [reflexivity | exact Hcond].
Qed.

Lemma condensedFrom_take_marker (n : nat) :
  forall (b : bool) (s : jsstring),
    condensedFrom b s = true ->
    condensedFrom b (take n s ++ truncationMarker) = true.
Proof.
  induction n as [|n IH]; intros b s Hs.
  - rewrite take_0. destruct b; reflexivity.
  - destruct s as [|ch rest]; [destruct b; reflexivity|].
    cbn [take app condensedFrom] in *. destruct (isWhiteSpace ch).
    + apply andb_prop in Hs as [Hb Hrest]. rewrite Hb. apply IH, Hrest.
    + apply IH, Hs.
Qed.

(** X4. Whatever the snippet and the limit, the condensed snippet has
    no white space but single blanks between other characters, has at
    most [maxLength + 3] code units, and is left unchanged by condensing
    it again under any limit that it fits. *)
Theorem condenseSnippet_condensed (snippet : jsstring) (maxLength : nat) :
  let out := condenseSnippet snippet maxLength in
  condensed out = true /\
  (length out <= maxLength + 3)%nat /\
  singleLineOf out = out /\
  condenseSnippet out (maxLength + 3) = out.
Proof.
  cbv zeta.
  assert (Hcond : condensed (condenseSnippet snippet maxLength) = true).
  { unfold condenseSnippet.
    pose proof (singleLineOf_is_condensed snippet) as Hs.
    destruct (Nat.leb_spec (length (singleLineOf snippet)) maxLength); [exact Hs|].
    unfold slice. rewrite drop_0, Nat.sub_0_r.
    destruct (singleLineOf snippet) as [|ch rest] eqn:Hline; [cbn in *; lia|].
    unfold condensed in Hs.
    pose proof (condensedFrom_take_marker maxLength true (ch :: rest) Hs) as Ht.
    unfold condensed. destruct (take maxLength (ch :: rest) ++ truncationMarker) eqn:Hout;
      [|exact Ht].
    apply app_eq_nil in Hout as [_ Hout]. discriminate. }
  pose proof (condenseSnippet_length snippet maxLength) as Hlen.
  pose proof (singleLineOf_condensed _ Hcond) as Hfix.
  repeat split; try assumption.
  rewrite condenseSnippet_short; rewrite Hfix; [reflexivity | exact Hlen].
Qed.

(** ** Property summaries *)

Section PropertyNames.
Context (K : TsEnums) (C : TypeChecker) (name : jsstring).

Lemma symbols_foldl_propStep (props : list TsSymbol)
    (st : PropertyMaps * gset jsstring) :
  symbolByName (foldl (propStep K) st props).1 !! name
  = match symbolByName st.1 !! name with
    | Some symbol => Some symbol
    | None => find (named name) props
    end.
Proof.
  revert st. induction props as [|prop props IH]; intros st; cbn [foldl find].
  - destruct (symbolByName st.1 !! name); reflexivity.
  - rewrite IH. unfold propStep. cbn [fst symbolByName].
    destruct (decide (symName prop = name)) as [Heq|Hne].
    + assert (Hnamed : named name prop = true) by (apply bool_decide_eq_true_2, Heq).
      rewrite Hnamed. subst name.
      destruct (decide (is_Some (symbolByName st.1 !! symName prop))) as [[s Hs]|Hnone].
      * rewrite Hs. reflexivity.
      * rewrite lookup_insert_eq.
        destruct (symbolByName st.1 !! symName prop) eqn:Hlook; [|reflexivity].
        exfalso. apply Hnone. eauto.
    + assert (Hnamed : named name prop = false) by (apply bool_decide_eq_false_2, Hne).
      rewrite Hnamed.
      destruct (decide (is_Some (symbolByName st.1 !! symName prop))); [reflexivity|].
      rewrite lookup_insert_ne by exact Hne. reflexivity.
Qed.

Lemma find_app_named (l1 l2 : list TsSymbol) :
  find (named name) (l1 ++ l2)
  = match find (named name) l1 with
    | Some symbol => Some symbol
    | None => find (named name) l2
    end.
Proof.
  induction l1 as [|x l1 IH]; cbn [app find]; [reflexivity|].
  destruct (named name x); [reflexivity | exact IH].
Qed.

Lemma symbols_foldl_memberStep (ms : list (TsType C)) (maps : PropertyMaps) :
  symbolByName (foldl (memberStep K C) maps ms) !! name
  = match symbolByName maps !! name with
    | Some symbol => Some symbol
    | None => firstNamed name (map (apparentProperties C) ms)
    end.
Proof.
  unfold firstNamed. revert maps.
  induction ms as [|m ms IH]; intros maps; cbn [foldl map concat find].
  - destruct (symbolByName maps !! name); reflexivity.
  - rewrite IH. unfold memberStep. fold (apparentProperties C m).
    rewrite symbols_foldl_propStep. cbn [fst]. rewrite find_app_named.
    destruct (symbolByName maps !! name); [reflexivity|].
    destruct (find (named name) (apparentProperties C m)); reflexivity.
Qed.
End PropertyNames.

Lemma firstNamed_declared (name : jsstring) (members : list (list TsSymbol)) :
  is_Some (firstNamed name members) <->
  exists props prop, props ∈ members /\ prop ∈ props /\ symName prop = name.
Proof.
  unfold firstNamed. split.
  - intros [symbol Hfind]. apply find_some in Hfind as [Hin Hnamed].
    apply in_concat in Hin as (props & Hprops & Hin).
    exists props, symbol. repeat split; try (apply list_elem_of_In; assumption).
    apply bool_decide_eq_true_1 in Hnamed. exact Hnamed.
  - intros (props & prop & Hprops & Hprop & Hname).
    destruct (find (named name) (concat members)) as [symbol|] eqn:Hfind; [eauto|].
    exfalso. pose proof (find_none _ _ Hfind prop) as Hnone.
    assert (Hin : In prop (concat members)).
    { apply in_concat. exists props. split; apply list_elem_of_In; assumption. }
    apply Hnone in Hin. unfold named in Hin.
    apply bool_decide_eq_false_1 in Hin. contradiction.
Qed.

(** The names gathered by [collectProperties], sorted. *)
Lemma collectProperties_names (K : TsEnums) (C : TypeChecker) (type : TsType C)
    (node : Node) (limit : nat) :
  let maps := foldl (memberStep K C) emptyMaps (memberTypesOf K C type) in
  map pi_name (collectProperties K C type node limit)
  = take limit (sortStrings (elements (dom (symbolByName maps)))).
Proof.
  cbv zeta. unfold collectProperties.
  set (maps := foldl (memberStep K C) emptyMaps (memberTypesOf K C type)).
  set (names := sortStrings (elements (dom (symbolByName maps)))).
  assert (Hall : Forall (fun n => is_Some (symbolByName maps !! n)) (take limit names)).
  { apply Forall_forall. intros n Hn. apply subseteq_take in Hn.
    apply sortStrings_elem, elem_of_elements, elem_of_dom in Hn. exact Hn. }
  induction Hall as [|n l [symbol Hsymbol] _ IH]; [reflexivity|].
  cbn [omap list_omap]. unfold propertyOf at 1. rewrite Hsymbol. cbn.
  f_equal. exact IH.
Qed.

(** X5. The property summaries come in strictly increasing order of
    name (code unit order), so no name occurs twice; there are at most
    [limit] of them; and every summary is named after a property of
    some contributing member. *)
Theorem collectProperties_sorted_bounded (K : TsEnums) (C : TypeChecker)
    (type : TsType C) (node : Node) (limit : nat) :
  let names := map pi_name (collectProperties K C type node limit) in
  StronglySorted str_le names /\
  NoDup names /\
  (length names <= limit)%nat /\
  forall name, name ∈ names ->
    exists member prop,
      member ∈ memberTypesOf K C type /\
      prop ∈ apparentProperties C member /\
      symName prop = name.
Proof.
  cbv zeta. rewrite collectProperties_names.
  set (maps := foldl (memberStep K C) emptyMaps (memberTypesOf K C type)).
  set (names := sortStrings (elements (dom (symbolByName maps)))).
  assert (Hsorted : StronglySorted str_le names) by apply sortStrings_sorted.
  assert (Hnodup : NoDup names) by apply sortStrings_NoDup, NoDup_elements.
  rewrite <- (take_drop limit names) in Hsorted, Hnodup.
  split; [apply (StronglySorted_app_1_l _ _ _ Hsorted)|].
  split; [apply NoDup_app in Hnodup as [Hnd _]; exact Hnd|].
  split; [rewrite length_take; lia|].
  intros name Hname. apply subseteq_take in Hname.
  apply sortStrings_elem, elem_of_elements, elem_of_dom in Hname.
  unfold maps in Hname. rewrite symbols_foldl_memberStep in Hname.
  change (symbolByName emptyMaps) with (∅ : gmap jsstring TsSymbol) in Hname.
  rewrite lookup_empty in Hname.
  apply firstNamed_declared in Hname as (props & prop & Hprops & Hprop & Hn).
  apply elem_of_map in Hprops as (member & -> & Hmember).
  exists member, prop. auto.
Qed.

(** X6. Nothing is lost below the limit: a property of a contributing
    member is summarised unless the list is full, and then every
    summary carries a name that sorts before it. *)
Theorem collectProperties_complete (K : TsEnums) (C : TypeChecker)
    (type : TsType C) (node : Node) (limit : nat)
    (member : TsType C) (prop : TsSymbol) :
  member ∈ memberTypesOf K C type ->
  prop ∈ apparentProperties C member ->
  let names := map pi_name (collectProperties K C type node limit) in
  symName prop ∈ names \/
  (length names = limit /\ Forall (fun n => str_le n (symName prop)) names).
Proof.
  intros Hmember Hprop. cbv zeta. rewrite collectProperties_names.
  set (maps := foldl (memberStep K C) emptyMaps (memberTypesOf K C type)).
  set (names := sortStrings (elements (dom (symbolByName maps)))).
  assert (Hin : symName prop ∈ names).
  { apply sortStrings_elem, elem_of_elements, elem_of_dom.
    unfold maps. rewrite symbols_foldl_memberStep.
    change (symbolByName emptyMaps) with (∅ : gmap jsstring TsSymbol).
    rewrite lookup_empty. apply firstNamed_declared.
    exists (apparentProperties C member), prop. split; [|auto].
    apply elem_of_map. exists member. auto. }
  assert (Hsorted : StronglySorted str_le names) by apply sortStrings_sorted.
  rewrite <- (take_drop limit names) in Hin, Hsorted.
  apply elem_of_app in Hin as [Hin|Hin]; [left; exact Hin|].
  right. split.
  - rewrite length_take. apply Nat.min_l.
    destruct (Nat.le_gt_cases limit (length names)); [assumption|].
    rewrite drop_ge in Hin by lia. inversion Hin.
  - apply Forall_forall. intros n Hn.
    apply (StronglySorted_app_1_elem_of _ _ _ _ _ Hsorted Hn Hin).
Qed.

(** X7. The type shown for a property is that of the first property of
    that name met when the members are walked in order, rendered at its
    first declaration, or at the queried node when it has none. *)
Theorem collectProperties_first_symbol (K : TsEnums) (C : TypeChecker)
    (type : TsType C) (node : Node) (limit : nat) (p : PropertyInfo) :
  p ∈ collectProperties K C type node limit ->
  exists symbol,
    firstNamed (pi_name p)
      (map (apparentProperties C) (memberTypesOf K C type)) = Some symbol /\
    let location := from_option declNode node (symDeclarations symbol ≫= head) in
    pi_type p
    = typeToString C (getTypeOfSymbolAtLocation C symbol location) location None.
Proof.
  unfold collectProperties. intros Hp.
  apply list_elem_of_omap in Hp as (name & _ & Hprop).
  unfold propertyOf in Hprop.
  destruct (symbolByName _ !! name) as [symbol|] eqn:Hsymbol; [|discriminate].
  cbn in Hprop. injection Hprop as <-. cbn [pi_name pi_type].
  rewrite symbols_foldl_memberStep in Hsymbol.
  change (symbolByName emptyMaps) with (∅ : gmap jsstring TsSymbol) in Hsymbol.
  rewrite lookup_empty in Hsymbol.
  exists symbol. split; [exact Hsymbol | reflexivity].
Qed.

Lemma collectProperties_complete_witness :
  let C := sampleChecker (fun _ => sampleUnion) (fun _ => None) in
  str "email"
  ∈ map pi_name (collectProperties sampleEnums C sampleUnion identA 25).
Proof.
  cbv zeta.
  destruct (collectProperties_complete sampleEnums
              (sampleChecker (fun _ => sampleUnion) (fun _ => None))
              sampleUnion identA 25 (TObject [propId; propEmail]) propEmail)
    as [Hin|[Hfull _]].
  - apply list_elem_of_In. vm_compute. right. left. reflexivity.
  - apply list_elem_of_In. vm_compute. right. left. reflexivity.
  - exact Hin.
  - vm_compute in Hfull. discriminate.
Defined.

Lemma collectProperties_first_symbol_witness :
  let C := sampleChecker (fun _ => sampleUnion) (fun _ => None) in
  firstNamed (str "id")
    (map (apparentProperties C) (memberTypesOf sampleEnums C sampleUnion))
  = Some propId.
Proof.
  cbv zeta.
  destruct (collectProperties_first_symbol sampleEnums
              (sampleChecker (fun _ => sampleUnion) (fun _ => None))
              sampleUnion identA 25
              {| pi_name := str "id"; pi_type := str "{}"; pi_optional := false |})
    as (symbol & Hfirst & _).
  - apply list_elem_of_In. vm_compute. right. left. reflexivity.
  - reflexivity.
Defined.

(** ** Query resolution: termination and edge cases *)




Lemma searchLoop_never_ok E sf regex matchIndex :
  forall fuel matcher idx r,
    matchIndex < idx ->
    searchLoop E sf regex matchIndex fuel matcher idx <> Some (Ok r).
Proof.
  induction fuel as [|fuel IH]; intros matcher idx r Hlt; [discriminate|].
  rewrite searchLoop_step.
  destruct (exec E matcher (getFullText sf)) as [[m|] matcher']; [|discriminate].
  destruct (Z.eqb_spec idx matchIndex); [lia|].
  destruct (negb (global matcher')); [discriminate|].
  apply IH. lia.
Qed.

(** X9. A pattern query with a negative index never resolves: whatever
    the pattern, the text and the number of iterations, the outcome is
    not a resolution. *)
Theorem resolvePosition_negative_index (E : RegExpEngine) (fuel : nat)
    (sf : SourceFile) (file : jsstring) (project : option jsstring)
    (regex : jsstring) (regexFlags : option jsstring) (k : Z)
    (r : QueryResolution) :
  k < 0 ->
  resolvePosition E fuel sf (RegexQuery file project regex regexFlags (Some k))
  <> Some (Ok r).
Proof.
  intros Hk. cbn [resolvePosition default].
  destruct (negb (regexpValid E regex _)); [discriminate|].
  apply searchLoop_never_ok. exact Hk.
Qed.

Lemma resolvePosition_negative_index_witness :
  resolvePosition sampleEngine 9 patternFile
    (RegexQuery (str "/work/pattern.ts") None (str "x") None (Some (-1)))
  <> Some (Ok (resolutionAt patternFile 1 2)).
Proof.
  apply (resolvePosition_negative_index sampleEngine 9 patternFile). lia.
Defined.

Section EmptyMatch.
Context (E : RegExpEngine) (sf : SourceFile) (regex flags : jsstring) (b : nat).
Hypothesis Hglobal : includes flags (str "g") = true.
Hypothesis Hinside : (b <= length (text sf))%nat.
Hypothesis Hagain : regexpMatch E regex flags (text sf) b = Some (b, b).


End EmptyMatch.



(** X11. A position query resolves exactly when its line exists and its
    column lies on that line; otherwise it fails with an error, at once.
    The resolved offset is the start of the line plus the column less
    one. *)
Theorem resolvePosition_position_outcome (E : RegExpEngine) (fuel : nat)
    (sf : SourceFile) (file : jsstring) (project : option jsstring)
    (line column : Z) :
  let outcome := resolvePosition E fuel sf (PositionQuery file project line column) in
  (withinFileBounds sf line column /\
   outcome
   = Some (Ok {| res_position :=
                   (nth (Z.to_nat (line - 1)) (getLineStarts sf) 0
                    + Z.to_nat (column - 1))%nat;
                 res_line := line; res_column := column;
                 res_matchedText := [] |})) \/
  (~ withinFileBounds sf line column /\ exists m, outcome = Some (Throw m)).
Proof.
  cbv zeta.
  destruct (resolvePosition E fuel sf (PositionQuery file project line column))
    as [[r|m]|] eqn:Hres.
  - left. pose proof (resolvePosition_ok_within_bounds _ _ _ _ _ _ _ _ Hres) as Hin.
    split; [exact Hin|].
    destruct Hin as (Hline & Hcolumn & Hlast).
    pose proof (getPosition_within_bounds sf (Z.to_nat (line - 1))
                  (Z.to_nat (column - 1)) ltac:(lia) ltac:(lia)) as Hpos.
    rewrite <- Hres. cbn [resolvePosition].
    destruct (Z.leb_spec line 0); [lia|]. destruct (Z.leb_spec column 0); [lia|].
    cbn [orb]. rewrite Hpos. reflexivity.
  - right. split; [|eauto]. intros (Hline & Hcolumn & Hlast).
    pose proof (getPosition_within_bounds sf (Z.to_nat (line - 1))
                  (Z.to_nat (column - 1)) ltac:(lia) ltac:(lia)) as Hpos.
    cbn [resolvePosition] in Hres.
    destruct (Z.leb_spec line 0); [lia|]. destruct (Z.leb_spec column 0); [lia|].
    cbn [orb] in Hres. rewrite Hpos in Hres. discriminate.
  - exfalso. cbn [resolvePosition] in Hres.
    destruct ((line <=? 0) || (column <=? 0)); discriminate.
Qed.

(** X13. Adding the global flag keeps the flags given as a prefix, adds
    at most one character, and adding it twice is adding it once. *)
Theorem includeGlobalFlag_idempotent (flags : jsstring) :
  includeGlobalFlag (includeGlobalFlag flags) = includeGlobalFlag flags /\
  flags `prefix_of` includeGlobalFlag flags /\
  (length (includeGlobalFlag flags) <= length flags + 1)%nat.
Proof.
  destruct (includeGlobalFlag_spec flags) as (Hg & Hkeep & Hadd).
  split; [|split].
  - destruct (includeGlobalFlag_spec (includeGlobalFlag flags)) as (_ & Hkeep' & _).
    apply Hkeep', Hg.
  - destruct (includes flags (str "g")) eqn:Hflags.
    + rewrite (Hkeep eq_refl). reflexivity.
    + rewrite (Hadd eq_refl). apply prefix_app_r. reflexivity.
  - destruct (includes flags (str "g")) eqn:Hflags.
    + rewrite (Hkeep eq_refl). lia.
    + rewrite (Hadd eq_refl), length_app. cbn. lia.
Qed.

(** ** Records returned by [pickType] *)

Lemma pickType_ok_inv (H : Host) (fuel : nat) (query : TypeQuery) (info : TypeInfo) :
  pickType H fuel query = Some (Ok info) ->
  let resolved := path_resolve H (queryFile query) in
  existsSync H resolved = true /\
  exists ctx sf r,
    createProgramForFile H resolved (queryProject query) = Ok ctx /\
    findSourceFile ctx resolved = Some sf /\
    resolvePosition (engine H) fuel sf query = Some (Ok r) /\
    info = assemble H ctx resolved sf r.
Proof.
  unfold pickType. cbv zeta.
  destruct (existsSync H (path_resolve H (queryFile query))); cbn [negb];
    [|discriminate].
  destruct (createProgramForFile H _ _) as [ctx|m] eqn:Hctx; [|discriminate].
  destruct (findSourceFile ctx _) as [sf|] eqn:Hsf; [|discriminate].
  destruct (resolvePosition (engine H) fuel sf query) as [[r|m]|] eqn:Hres;
    try discriminate.
  intros [= <-]. split; [reflexivity|]. exists ctx, sf, r. auto.
Qed.

Lemma searchLoop_ok_one_based E sf regex matchIndex :
  forall fuel matcher idx r,
    searchLoop E sf regex matchIndex fuel matcher idx = Some (Ok r) ->
    1 <= res_line r /\ 1 <= res_column r.
Proof.
  induction fuel as [|fuel IH]; intros matcher idx r; [discriminate|].
  rewrite searchLoop_step.
  destruct (exec E matcher (getFullText sf)) as [[m|] matcher']; [|discriminate].
  destruct (idx =? matchIndex).
  - cbv zeta. intros [= <-]. cbn. lia.
  - destruct (negb (global matcher')); [discriminate|]. apply IH.
Qed.

Lemma resolvePosition_ok_one_based E fuel sf query r :
  resolvePosition E fuel sf query = Some (Ok r) ->
  1 <= res_line r /\ 1 <= res_column r.
Proof.
  destruct query as [file project line column
                    |file project regex regexFlags matchIndex].
  - intros Hr. apply resolvePosition_position_inv in Hr
      as (Hl & Hc & _ & -> & -> & _). lia.
  - cbn [resolvePosition]. destruct (negb (regexpValid E regex _)); [discriminate|].
    apply searchLoop_ok_one_based.
Qed.

(** X14. Every record returned by [pickType] is for a file that exists,
    has at most 10 signatures, 25 properties and 10 declarations, a line
    and a column that are at least 1, and flag names that are those of
    the flag numbers it carries. *)
Theorem pickType_record_bounded (H : Host) (fuel : nat) (query : TypeQuery)
    (info : TypeInfo) :
  pickType H fuel query = Some (Ok info) ->
  existsSync H (path_resolve H (queryFile query)) = true /\
  ti_file info = path_normalize H (path_resolve H (queryFile query)) /\
  (length (ti_signatures info) <= 10)%nat /\
  (length (ti_properties info) <= 25)%nat /\
  (length (ti_declarations info) <= 10)%nat /\
  1 <= pos_line (ti_position info) /\
  1 <= pos_column (ti_position info) /\
  fl_names (ti_typeFlags info)
  = collectFlagNames (TypeFlags (enums H)) (fl_flags (ti_typeFlags info)) /\
  forall symbol, ti_symbol info = Some symbol ->
    fl_names (sy_flags symbol)
    = collectFlagNames (SymbolFlags (enums H)) (fl_flags (sy_flags symbol)).
Proof.
  intros Hpick. apply pickType_ok_inv in Hpick
    as (Hexists & ctx & sf & r & _ & _ & Hres & ->).
  apply resolvePosition_ok_one_based in Hres as [Hline Hcolumn].
  split; [exact Hexists|]. split; [reflexivity|].
  unfold assemble. cbn [ti_signatures ti_properties ti_declarations ti_position
                         pos_line pos_column ti_typeFlags ti_symbol fl_names fl_flags].
  split; [|split; [|split; [|split; [|split; [|split]]]]].
  - unfold collectSignatures, defaultSignatureLimit.
    rewrite length_app, !length_map, !length_take. lia.
  - rewrite <- (length_map pi_name), collectProperties_names, length_take.
    unfold defaultPropertyLimit. lia.
  - destruct (getSymbolAtLocation _ _) as [s|]; [|destruct (typeGetSymbol _ _) as [s|]];
      try (cbn; lia);
      unfold collectDeclarations, defaultDeclarationLimit;
      rewrite length_map, length_take; lia.
  - exact Hline.
  - exact Hcolumn.
  - reflexivity.
  - intros symbol.
    destruct (getSymbolAtLocation _ _) as [s|]; [|destruct (typeGetSymbol _ _) as [s|]];
      intros [= <-]; reflexivity.
Qed.

Lemma pickType_record_bounded_witness :
  exists info,
    pickType sampleHost 0 (PositionQuery (str "/work/sample.ts") None 1 5)
    = Some (Ok info) /\
    (length (ti_properties info) <= 25)%nat /\
    1 <= pos_line (ti_position info).
Proof.
  eexists. split; [reflexivity|].
  destruct (pickType_record_bounded sampleHost 0
              (PositionQuery (str "/work/sample.ts") None 1 5) _ eq_refl)
    as (_ & _ & _ & Hprops & _ & Hline & _).
  split; [exact Hprops | exact Hline].
Defined.

(** X15. The record of a successful position query repeats the line and
    the column of the query, and its offset is the one that the line map
    of the file sends back to that line and column; the node kind is
    that of the node located at this offset. *)
Theorem pickType_position_echo (H : Host) (fuel : nat) (file : jsstring)
    (project : option jsstring) (line column : Z) (info : TypeInfo) :
  pickType H fuel (PositionQuery file project line column) = Some (Ok info) ->
  pos_line (ti_position info) = line /\
  pos_column (ti_position info) = column /\
  exists ctx sf,
    createProgramForFile H (path_resolve H file) project = Ok ctx /\
    findSourceFile ctx (path_resolve H file) = Some sf /\
    getLineAndCharacterOfPosition sf (pos_offset (ti_position info))
    = (Z.to_nat (line - 1), Z.to_nat (column - 1)) /\
    ti_nodeKind info
    = SyntaxKind (enums H)
        (kind (findClosestNode sf (pos_offset (ti_position info)))).
Proof.
  intros Hpick. apply pickType_ok_inv in Hpick
    as (_ & ctx & sf & r & Hctx & Hsf & Hres & ->).
  apply resolvePosition_position_inv in Hres as (_ & _ & Hpos & Hl & Hc & _).
  unfold assemble. cbn [ti_position pos_line pos_column pos_offset ti_nodeKind].
  split; [exact Hl|]. split; [exact Hc|].
  exists ctx, sf. split; [exact Hctx|]. split; [exact Hsf|].
  split; [|reflexivity]. apply getPosition_round_trip, Hpos.
Qed.

Lemma pickType_position_echo_witness :
  exists info,
    pickType sampleHost 0 (PositionQuery (str "/work/sample.ts") None 1 5)
    = Some (Ok info) /\
    ti_position info = {| pos_line := 1; pos_column := 5; pos_offset := 4 |}.
Proof.
  eexists. split; [reflexivity|].
  destruct (pickType_position_echo sampleHost 0 (str "/work/sample.ts") None 1 5
              _ eq_refl) as (_ & _ & _).
  reflexivity.
Defined.

(** X16. A query on a file that does not exist fails with "File not
    found" followed by the resolved path, whatever the query is and
    before any search: the outcome does not depend on the iterations
    allowed. *)
Theorem pickType_file_not_found (H : Host) (fuel : nat) (query : TypeQuery) :
  existsSync H (path_resolve H (queryFile query)) = false ->
  exists m,
    pickType H fuel query = Some (Throw m) /\
    m = str "File not found: " ++ path_resolve H (queryFile query) /\
    includes m (path_resolve H (queryFile query)) = true.
Proof.
  intros Hmissing. eexists. split; [|split; [reflexivity|]].
  - unfold pickType. rewrite Hmissing. reflexivity.
  - apply includes_app_r, includes_refl.
Qed.

Lemma pickType_file_not_found_witness :
  pickType sampleHost 0
    (RegexQuery (str "/work/absent.ts") None (str "x*") None (Some (-1)))
  = Some (Throw (str "File not found: /work/absent.ts")).
Proof.
  destruct (pickType_file_not_found sampleHost 0
              (RegexQuery (str "/work/absent.ts") None (str "x*") None (Some (-1)))
              eq_refl) as (m & Hpick & -> & _).
  exact Hpick.
Defined.

(** X17. A position query never keeps [pickType] running: it returns a
    record or an error without any iteration of the search loop. *)
Theorem pickType_position_terminates (H : Host) (fuel : nat) (file : jsstring)
    (project : option jsstring) (line column : Z) :
  is_Some (pickType H fuel (PositionQuery file project line column)).
Proof.
  unfold pickType. cbv zeta.
  destruct (negb (existsSync H _)); [eauto|].
  destruct (createProgramForFile H _ _) as [ctx|m]; [|eauto].
  destruct (findSourceFile ctx _) as [sf|]; [|eauto].
  destruct (resolvePosition (engine H) fuel sf
              (PositionQuery file project line column)) as [[r|m]|] eqn:Hres;
    eauto.
  exfalso. cbn [resolvePosition] in Hres.
  destruct ((line <=? 0) || (column <=? 0)); discriminate.
Qed.

(** X18. The matched text of a returned record is the text matched by
    the pattern when that text is not empty, and otherwise the source
    text of the node located in the queried file, the one found in the
    program built for the query; the offset of the record is the
    resolved one. *)
Theorem pickType_matchedText (H : Host) (fuel : nat) (query : TypeQuery)
    (info : TypeInfo) :
  pickType H fuel query = Some (Ok info) ->
  exists ctx sf r,
    createProgramForFile H (path_resolve H (queryFile query)) (queryProject query)
    = Ok ctx /\
    findSourceFile ctx (path_resolve H (queryFile query)) = Some sf /\
    resolvePosition (engine H) fuel sf query = Some (Ok r) /\
    pos_offset (ti_position info) = res_position r /\
    ti_matchedText info
    = match res_matchedText r with
      | [] => getText sf (findClosestNode sf (res_position r))
      | _ :: _ => res_matchedText r
      end.
Proof.
  intros Hpick. apply pickType_ok_inv in Hpick
    as (_ & ctx & sf & r & Hctx & Hsf & Hres & ->).
  exists ctx, sf, r. split; [exact Hctx|]. split; [exact Hsf|].
  split; [exact Hres|].
  split; [reflexivity|]. unfold assemble. cbn [ti_matchedText].
  destruct (res_matchedText r); reflexivity.
Qed.

Lemma pickType_matchedText_witness :
  exists info,
    pickType sampleHost 2
      (RegexQuery (str "/work/pattern.ts") None (str "xx") None None)
    = Some (Ok info) /\
    ti_matchedText info = str "xx".
Proof.
  eexists. split; [reflexivity|].
  destruct (pickType_matchedText sampleHost 2
              (RegexQuery (str "/work/pattern.ts") None (str "xx") None None)
              _ eq_refl) as (_ & _ & _ & _).
  reflexivity.
Defined.

(** ** Project configuration *)

(** X19. An explicit project path is never ignored: the outcome is an
    error naming the resolved path, or a configuration file that exists,
    namely [tsconfig.json] inside the path when it is a directory, and
    the path itself, which must have the extension [.json], when it is
    not. *)
Theorem resolveProjectConfig_explicit (F : Project.FileSystem)
    (filePath project : jsstring) :
  project <> [] ->
  let resolved := Project.fs_resolve F project in
  match Project.resolveProjectConfig F filePath (Some project) with
  | Ok (Some config) =>
      Project.fs_existsSync F config = true /\
      Project.fs_existsSync F resolved = true /\
      ((Project.fs_isDirectory F resolved = true /\
        config = Project.fs_join F resolved (str "tsconfig.json")) \/
       (Project.fs_isDirectory F resolved = false /\
        config = resolved /\ Project.fs_extname F resolved = str ".json"))
  | Ok None => False
  | Throw m => includes m resolved = true
  end.
Proof.
  intros Hne. cbv zeta. unfold Project.resolveProjectConfig.
  destruct project as [|ch rest]; [congruence|].
  change (0 <? length (default [] (Some (ch :: rest))))%nat with true. cbv iota.
  change (default [] (Some (ch :: rest))) with (ch :: rest).
  destruct (Project.fs_existsSync F (Project.fs_resolve F (ch :: rest))) eqn:Hexists;
    cbn [negb].
  - destruct (Project.fs_isDirectory F _) eqn:Hdir.
    + destruct (Project.fs_existsSync F (Project.fs_join F _ _)) eqn:Hcandidate;
        cbn [negb].
      * split; [exact Hcandidate|]. split; [reflexivity|]. left. auto.
      * apply includes_app_r, includes_refl.
    + destruct (decide (Project.fs_extname F (Project.fs_resolve F (ch :: rest))
                        = str ".json")) as [Hext|Hext].
      * rewrite (bool_decide_eq_true_2 _ Hext). cbn [negb].
        split; [exact Hexists|]. split; [reflexivity|]. right. auto.
      * rewrite (bool_decide_eq_false_2 _ Hext). cbn [negb].
        apply includes_app_r, includes_refl.
  - apply includes_app_r, includes_refl.
Qed.

Lemma resolveProjectConfig_explicit_witness :
  Project.resolveProjectConfig sampleFileSystem (str "/work/sample.ts")
    (Some (str "/work"))
  = Ok (Some (str "/work/tsconfig.json")) /\
  Project.fs_existsSync sampleFileSystem (str "/work/tsconfig.json") = true.
Proof.
  split; [reflexivity|].
  assert (Hne : str "/work" <> []) by discriminate.
  pose proof (resolveProjectConfig_explicit sampleFileSystem
                (str "/work/sample.ts") (str "/work") Hne) as Hspec.
  exact (proj1 Hspec).
Defined.

(** Without a project, and likewise with the empty string, the
    configuration is looked for from the directory of the file; this
    never fails, and finding none is a valid outcome. *)
Theorem resolveProjectConfig_discovery (F : Project.FileSystem)
    (filePath : jsstring) :
  let found := Project.fs_findConfigFile F (Project.fs_dirname F filePath) in
  Project.resolveProjectConfig F filePath None = Ok found /\
  Project.resolveProjectConfig F filePath (Some []) = Ok found.
Proof. split; reflexivity. Qed.

Lemma rootNames_spec (fileNames : list jsstring) (filePath : jsstring) :
  let roots := Project.rootNames fileNames filePath in
  (filePath ∈ fileNames -> roots = fileNames) /\
  (filePath ∉ fileNames -> roots = fileNames ++ [filePath]) /\
  filePath ∈ roots /\
  (NoDup fileNames -> NoDup roots).
Proof.
  cbv zeta. unfold Project.rootNames.
  destruct (decide (filePath ∈ fileNames)) as [Hin|Hnot].
  - rewrite (bool_decide_eq_true_2 _ Hin). split; [reflexivity|].
    split; [contradiction|]. split; [exact Hin | auto].
  - rewrite (bool_decide_eq_false_2 _ Hnot). split; [contradiction|].
    split; [reflexivity|].
    split; [apply elem_of_app; right; apply list_elem_of_singleton; reflexivity|].
    intros Hnd. apply NoDup_app. split; [exact Hnd|]. split.
    + intros x Hx Hx'. apply list_elem_of_singleton in Hx'. subst. contradiction.
    + apply NoDup_singleton.
Qed.

(** X20. When [createProgramForFile] succeeds without a configuration
    (none was found), the program is built from the queried file alone
    under the default options.  When it succeeds with one, the
    configuration is the one resolved, it was read and parsed without
    error, and the program is built under its options from its files
    themselves when the queried file is one of them, and from its files
    followed by the queried file when it is not: the queried file is
    always a root, and it is never added a second time. *)
Theorem createProgramForFile_roots (F : Project.FileSystem)
    (A : Project.CompilerApi) (filePath : jsstring) (project : option jsstring)
    (ctx : ProgramContext) :
  Project.createProgramForFile F A filePath project = Ok ctx ->
  match configPath ctx with
  | None =>
      (Project.resolveProjectConfig F filePath project = Ok None \/
       Project.resolveProjectConfig F filePath project = Ok (Some [])) /\
      ctx = Project.withConfigPath
              (Project.createProgram A [filePath]
                 (Project.DEFAULT_COMPILER_OPTIONS A) None)
              None
  | Some config =>
      config <> [] /\
      Project.resolveProjectConfig F filePath project = Ok (Some config) /\
      exists object,
        Project.readConfigFile A config = Ok object /\
        let parsed :=
          Project.parseJsonConfigFileContent A object
            (Project.fs_dirname F config) config in
        let fileNames := Project.parsed_fileNames parsed in
        let roots := Project.rootNames fileNames filePath in
        Project.parsed_errors parsed = [] /\
        ctx = Project.withConfigPath
                (Project.createProgram A roots (Project.parsed_options parsed)
                   (Project.parsed_projectReferences parsed))
                (Some config) /\
        (filePath ∈ fileNames -> roots = fileNames) /\
        (filePath ∉ fileNames -> roots = fileNames ++ [filePath]) /\
        filePath ∈ roots /\
        (NoDup fileNames -> NoDup roots)
  end.
Proof.
  unfold Project.createProgramForFile.
  destruct (Project.resolveProjectConfig F filePath project) as [found|m] eqn:Hfound;
    [|discriminate].
  destruct found as [[|ch rest]|].
  - cbn [default length Nat.ltb Nat.leb negb]. intros [= <-].
    cbn [configPath Project.withConfigPath]. split; [right|]; reflexivity.
  - change (negb (0 <? length (default [] (Some (ch :: rest))))%nat) with false.
    cbv iota. change (default [] (Some (ch :: rest))) with (ch :: rest).
    destruct (Project.readConfigFile A (ch :: rest)) as [object|m] eqn:Hread;
      [|discriminate].
    set (parsed := Project.parseJsonConfigFileContent A object
                     (Project.fs_dirname F (ch :: rest)) (ch :: rest)).
    destruct (Project.parsed_errors parsed) as [|e es] eqn:Herrors;
      cbn [length Nat.ltb Nat.leb]; [|discriminate].
    intros [= <-].
    cbn [configPath Project.withConfigPath].
    split; [discriminate|]. split; [reflexivity|].
    exists object. split; [exact Hread|]. cbv zeta. fold parsed.
    split; [exact Herrors|]. split; [reflexivity|].
    apply rootNames_spec.
  - cbn [default length Nat.ltb Nat.leb negb]. intros [= <-].
    cbn [configPath Project.withConfigPath]. split; [left|]; reflexivity.
Qed.

Lemma createProgramForFile_roots_witness :
  exists ctx,
    Project.createProgramForFile sampleFileSystem sampleApi
      (str "/work/pattern.ts") None = Ok ctx /\
    configPath ctx = Some (str "/work/tsconfig.json") /\
    Project.rootNames [str "/work/sample.ts"] (str "/work/pattern.ts")
    = [str "/work/sample.ts"; str "/work/pattern.ts"].
Proof.
  eexists. split; [reflexivity|].
  destruct (createProgramForFile_roots sampleFileSystem sampleApi
              (str "/work/pattern.ts") None _ eq_refl)
    as (_ & _ & object & _ & _ & _ & _ & Hadd & _).
  split; [reflexivity|]. apply Hadd.
  intros Hin. apply list_elem_of_In in Hin. cbn in Hin.
  destruct Hin as [Hin|[]]. discriminate Hin.
Defined.

(** X21. Under the host made of these functions, a query that names a
    project path that does not exist fails with "Project path does not
    exist", whatever is asked about the file, provided the file itself
    exists. *)
Theorem pickType_missing_project (F : Project.FileSystem)
    (A : Project.CompilerApi) (E : RegExpEngine) (K : TsEnums) (fuel : nat)
    (query : TypeQuery) (project : jsstring) :
  queryProject query = Some project ->
  project <> [] ->
  Project.fs_existsSync F (Project.fs_resolve F (queryFile query)) = true ->
  Project.fs_existsSync F (Project.fs_resolve F project) = false ->
  pickType (hostOf F A E K) fuel query
  = Some (Throw (Project.missingProjectMessage (Project.fs_resolve F project))).
Proof.
  intros Hproject Hne Hfile Hmissing. unfold pickType, hostOf.
  cbn [path_resolve existsSync createProgramForFile].
  rewrite Hfile, Hproject. cbn [negb].
  unfold Project.createProgramForFile, Project.resolveProjectConfig.
  destruct project as [|ch rest]; [congruence|].
  change (0 <? length (default [] (Some (ch :: rest))))%nat with true. cbv iota.
  change (default [] (Some (ch :: rest))) with (ch :: rest).
  rewrite Hmissing. reflexivity.
Qed.

Lemma pickType_missing_project_witness :
  pickType (hostOf sampleFileSystem sampleApi sampleEngine sampleEnums) 0
    (PositionQuery (str "/work/sample.ts") (Some (str "/elsewhere")) 1 1)
  = Some (Throw (str "Project path does not exist: /elsewhere")).
Proof.
  apply (pickType_missing_project sampleFileSystem sampleApi sampleEngine
           sampleEnums 0
           (PositionQuery (str "/work/sample.ts") (Some (str "/elsewhere")) 1 1)
           (str "/elsewhere")); [reflexivity | discriminate | reflexivity | reflexivity].
Defined.

(** ** Command line *)

(** X22. When a pattern is given (a string that is not empty), the query
    is a pattern query and the line and column options play no part:
    two sets of options that agree on the pattern, its flags, the index
    and the project build the same query or fail alike. *)
Theorem buildQuery_pattern_priority (toNumber : jsstring -> option Z)
    (file : jsstring) (values values' : gmap jsstring JsValue)
    (regex : jsstring) :
  values !! str "regex" = Some (JString regex) ->
  regex <> [] ->
  values' !! str "regex" = values !! str "regex" ->
  values' !! str "regex-flags" = values !! str "regex-flags" ->
  values' !! str "index" = values !! str "index" ->
  values' !! str "project" = values !! str "project" ->
  buildQuery toNumber file values' = buildQuery toNumber file values /\
  match buildQuery toNumber file values with
  | Ok (RegexQuery file' _ regex' _ _) => file' = file /\ regex' = regex
  | Ok (PositionQuery _ _ _ _) => False
  | Throw m =>
      exists indexText,
        values !! str "index" = Some (JString indexText) /\
        toNumber indexText = None /\ m = invalidIndexMessage indexText
  end.
Proof.
  intros Hregex Hne Hr Hf Hi Hp. unfold buildQuery.
  rewrite Hr, Hf, Hi, Hp, Hregex. cbn [stringOrUndefined default].
  destruct regex as [|ch rest]; [congruence|].
  change (0 <? length (ch :: rest))%nat with true. cbv iota.
  split; [reflexivity|].
  destruct (values !! str "index") as [[n|indexText|flag|]|]; cbn [stringOrUndefined];
    try (split; reflexivity).
  destruct (toNumber indexText) eqn:Hnumber; [split; reflexivity|].
  exists indexText. auto.
Qed.

Lemma buildQuery_pattern_priority_witness :
  buildQuery sampleNumber (str "/work/pattern.ts")
    (<[str "regex" := JString (str "x")]> sampleValues)
  = buildQuery sampleNumber (str "/work/pattern.ts")
      {[ str "regex" := JString (str "x") ]}.
Proof.
  apply (buildQuery_pattern_priority sampleNumber (str "/work/pattern.ts")
           {[ str "regex" := JString (str "x") ]}
           (<[str "regex" := JString (str "x")]> sampleValues) (str "x"));
    [reflexivity | discriminate | reflexivity | reflexivity | reflexivity
    | reflexivity].
Defined.

(** X23. A query that is built is never partial: it is a pattern query
    for the pattern given, which is not empty, or, when no usable
    pattern is given, a position query whose line and column were both
    given and both read as numbers.  Nothing is checked about their
    sign. *)
Theorem buildQuery_ok_inv (toNumber : jsstring -> option Z) (file : jsstring)
    (values : gmap jsstring JsValue) (query : TypeQuery) :
  buildQuery toNumber file values = Ok query ->
  queryFile query = file /\
  queryProject query = stringOrUndefined (values !! str "project") /\
  match query with
  | RegexQuery _ _ regex regexFlags matchIndex =>
      values !! str "regex" = Some (JString regex) /\ regex <> [] /\
      regexFlags = stringOrUndefined (values !! str "regex-flags") /\
      matchIndex = stringOrUndefined (values !! str "index") ≫= toNumber
  | PositionQuery _ _ line column =>
      default [] (stringOrUndefined (values !! str "regex")) = [] /\
      exists lineText columnText,
        values !! str "line" = Some (JString lineText) /\
        values !! str "column" = Some (JString columnText) /\
        toNumber lineText = Some line /\ toNumber columnText = Some column
  end.
Proof.
  unfold buildQuery.
  destruct (stringOrUndefined (values !! str "regex")) as [[|ch rest]|] eqn:Hregex;
    cbn [default length Nat.ltb Nat.leb].
  1,3: destruct (values !! str "line") as [[?|lineText|?|]|] eqn:Hline;
       destruct (values !! str "column") as [[?|columnText|?|]|] eqn:Hcolumn;
       cbn; try discriminate;
       destruct (toNumber lineText) as [line|] eqn:Hl; try discriminate;
       destruct (toNumber columnText) as [column|] eqn:Hc; try discriminate;
       intros [= <-]; cbn; repeat split; eauto 10.
  destruct (values !! str "regex") as [[?|regex|?|]|] eqn:Hlook; try discriminate.
  cbn in Hregex. injection Hregex as ->.
  destruct (stringOrUndefined (values !! str "index")) as [indexText|] eqn:Hindex.
  - destruct (toNumber indexText) as [k|] eqn:Hk; [|discriminate].
    intros [= <-]. cbn. rewrite Hk. repeat split; try reflexivity. discriminate.
  - intros [= <-]. cbn. repeat split; try reflexivity. discriminate.
Qed.

Lemma buildQuery_ok_inv_witness :
  buildQuery sampleNumber (str "/work/sample.ts") sampleValues
  = Ok (PositionQuery (str "/work/sample.ts") None 1 5).
Proof.
  assert (Hbuilt : buildQuery sampleNumber (str "/work/sample.ts") sampleValues
                   = Ok (PositionQuery (str "/work/sample.ts") None 1 5))
    by reflexivity.
  destruct (buildQuery_ok_inv sampleNumber (str "/work/sample.ts") sampleValues
              _ Hbuilt) as (_ & _ & _).
  exact Hbuilt.
Defined.

(** X24. Without a usable pattern, a line without a column, or a column
    without a line, is refused with "Line and column must be provided
    together", and neither of them with "Provide either --regex or both
    --line and --column"; an empty pattern counts as no pattern. *)
Theorem buildQuery_incomplete (toNumber : jsstring -> option Z) (file : jsstring)
    (values : gmap jsstring JsValue) :
  default [] (stringOrUndefined (values !! str "regex")) = [] ->
  let hasLine := is_Some (stringOrUndefined (values !! str "line")) in
  let hasColumn := is_Some (stringOrUndefined (values !! str "column")) in
  (hasLine /\ ~ hasColumn \/ ~ hasLine /\ hasColumn ->
   buildQuery toNumber file values = Throw togetherMessage) /\
  (~ hasLine /\ ~ hasColumn ->
   buildQuery toNumber file values = Throw provideMessage).
Proof.
  intros Hregex. cbv zeta. unfold buildQuery. rewrite Hregex.
  cbn [length Nat.ltb Nat.leb].
  destruct (stringOrUndefined (values !! str "line")) as [lineText|];
    destruct (stringOrUndefined (values !! str "column")) as [columnText|];
    cbn; split; intros Hcase; try reflexivity; exfalso;
    repeat match goal with
           | H : _ \/ _ |- _ => destruct H
           | H : _ /\ _ |- _ => destruct H
           | H : ~ is_Some (Some _) |- _ => apply H; eauto
           | H : is_Some None |- _ => destruct H; discriminate
           end.
Qed.

Lemma buildQuery_incomplete_witness :
  buildQuery sampleNumber (str "/work/sample.ts")
    {[ str "regex" := JString []; str "line" := JString (str "3") ]}
  = Throw togetherMessage.
Proof.
  apply (buildQuery_incomplete sampleNumber (str "/work/sample.ts")
           {[ str "regex" := JString []; str "line" := JString (str "3") ]});
    [reflexivity|].
  left. split; [eexists; reflexivity|]. intros [x Hx]. discriminate.
Defined.

(** The output is compact exactly when [compact] is the boolean
    true, or when [compact] is not a boolean and [pretty] is the boolean
    false: [compact], when given, decides alone, and the default is
    pretty. *)
Theorem resolvePretty_false_iff (values : gmap jsstring JsValue) :
  resolvePretty values = false <->
  values !! str "compact" = Some (JBoolean true) \/
  ((forall b, values !! str "compact" <> Some (JBoolean b)) /\
   values !! str "pretty" = Some (JBoolean false)).
Proof.
  unfold resolvePretty.
  destruct (values !! str "compact") as [[?|?|[|]|]|];
    try (destruct (values !! str "pretty") as [[?|?|[|]|]|]);
    cbn; split; try discriminate; auto;
    try (intros [Heq|[Hnot Heq]]; try discriminate; try congruence;
         exfalso; eapply Hnot; reflexivity);
    try (intros _; right; split; [intros b; discriminate | reflexivity]).
Qed.

(** X25. The command line reads numbers and leaves their sign to the
    engine: options without a pattern whose line or column reads as a
    number that is not positive are built into a query, and that query,
    on a file that exists and loads, fails with "Line and column must be
    1-based and positive". *)
Theorem runQuery_not_positive (H : Host) (toNumber : jsstring -> option Z)
    (fuel : nat) (file : jsstring) (values : gmap jsstring JsValue)
    (lineText columnText : jsstring) (line column : Z)
    (ctx : ProgramContext) (sf : SourceFile) :
  default [] (stringOrUndefined (values !! str "regex")) = [] ->
  values !! str "line" = Some (JString lineText) ->
  values !! str "column" = Some (JString columnText) ->
  toNumber lineText = Some line ->
  toNumber columnText = Some column ->
  line <= 0 \/ column <= 0 ->
  existsSync H (path_resolve H file) = true ->
  createProgramForFile H (path_resolve H file)
    (stringOrUndefined (values !! str "project")) = Ok ctx ->
  findSourceFile ctx (path_resolve H file) = Some sf ->
  buildQuery toNumber file values
  = Ok (PositionQuery file (stringOrUndefined (values !! str "project")) line column) /\
  runQuery H toNumber fuel file values = Some (Throw positionMessage).
Proof.
  intros Hregex Hline Hcolumn Hl Hc Hbad Hexists Hctx Hsf.
  assert (Hbuilt : buildQuery toNumber file values
                   = Ok (PositionQuery file
                           (stringOrUndefined (values !! str "project")) line column)).
  { unfold buildQuery. rewrite Hregex, Hline, Hcolumn.
    cbn [length Nat.ltb Nat.leb stringOrUndefined default]. cbn. rewrite Hl, Hc.
    reflexivity. }
  split; [exact Hbuilt|].
  unfold runQuery. rewrite Hbuilt. unfold pickType.
  cbn [queryFile queryProject]. rewrite Hexists, Hctx, Hsf. cbn [negb resolvePosition].
  assert (Hguard : (line <=? 0) || (column <=? 0) = true).
  { destruct Hbad as [Hb|Hb]; apply Z.leb_le in Hb; rewrite Hb;
      [reflexivity | apply orb_true_r]. }
  rewrite Hguard. reflexivity.
Qed.

Lemma runQuery_not_positive_witness :
  runQuery sampleHost sampleNumber 0 (str "/work/sample.ts")
    {[ str "line" := JString (str "0"); str "column" := JString (str "-2") ]}
  = Some (Throw positionMessage).
Proof.
  apply (runQuery_not_positive sampleHost sampleNumber 0 (str "/work/sample.ts")
           {[ str "line" := JString (str "0"); str "column" := JString (str "-2") ]}
           (str "0") (str "-2") 0 (-2) sampleContext sampleFile);
    try reflexivity.
  left. lia.
Defined.

(** ** Filters and flag names, once more *)

(** X26. Filtering twice is filtering once, and when none of the three
    omission options is truthy the record comes back unchanged. *)
Theorem applyOutputFilters_idempotent (result : TypeInfo)
    (values : gmap jsstring JsValue) :
  applyOutputFilters (applyOutputFilters result values) values
  = applyOutputFilters result values /\
  (truthy (values !! str "omit-diagnostics")
   || truthy (values !! str "omit-properties")
   || truthy (values !! str "omit-signatures") = false ->
   applyOutputFilters result values = result).
Proof.
  unfold applyOutputFilters. destruct result.
  destruct (truthy (values !! str "omit-diagnostics"));
    destruct (truthy (values !! str "omit-properties"));
    destruct (truthy (values !! str "omit-signatures"));
    cbn; split; try reflexivity; discriminate.
Qed.

Lemma applyOutputFilters_idempotent_witness :
  applyOutputFilters sampleRecord {[ str "pretty" := JBoolean true ]} = sampleRecord.
Proof.
  apply (applyOutputFilters_idempotent sampleRecord
           {[ str "pretty" := JBoolean true ]}).
  reflexivity.
Defined.

(** X27. The names returned do not depend on the order in which the
    enumeration lists its entries. *)
Theorem collectFlagNames_permutation (flagEnum flagEnum' : list (jsstring * JsValue))
    (flags : Z) :
  flagEnum ≡ₚ flagEnum' ->
  collectFlagNames flagEnum flags = collectFlagNames flagEnum' flags.
Proof.
  intros Hperm. unfold collectFlagNames. apply sortStrings_permutation.
  apply NoDup_Permutation.
  - apply foldl_flagStep_NoDup, NoDup_nil_2.
  - apply foldl_flagStep_NoDup, NoDup_nil_2.
  - intros x. rewrite !foldl_flagStep_elem. split;
      (intros [Hx|(entry & Hentry & Hrest)]; [left; exact Hx|]; right;
       exists entry; split; [|exact Hrest]).
    + rewrite <- Hperm. exact Hentry.
    + rewrite Hperm. exact Hentry.
Qed.

Lemma collectFlagNames_permutation_witness :
  collectFlagNames [(str "B", JNumber 2); (str "A", JNumber 1)] 3
  = collectFlagNames [(str "A", JNumber 1); (str "B", JNumber 2)] 3.
Proof.
  apply (collectFlagNames_permutation
           [(str "B", JNumber 2); (str "A", JNumber 1)]
           [(str "A", JNumber 1); (str "B", JNumber 2)] 3).
  apply Permutation_swap.
Defined.

(** ** Single bits and located nodes *)

Lemma isSingleBit_uint32_witness :
  isSingleBit 2097152 = true /\ isSingleBit 3145728 = false.
Proof.
  split.
  - apply (isSingleBit_uint32 2097152); [lia|]. exists 21. split; [lia | reflexivity].
  - reflexivity.
Defined.

(** X29. When the offset lies in the root's span, both with and without
    its leading trivia, the node returned is one the traversal entered
    and its own text span, from its first token to its end, contains
    the offset. *)
Theorem findClosestNode_token_span (sf : SourceFile) (p : nat) :
  fullSpanContains (rootNode sf) p = true ->
  tokenSpanContains (rootNode sf) p = true ->
  entered p (rootNode sf) (findClosestNode sf p) /\
  tokenSpanContains (findClosestNode sf p) p = true.
Proof.
  intros Hfull Htoken. unfold findClosestNode. rewrite visit_last.
  destruct (last (candidates p (rootNode sf))) as [r|] eqn:Hlast.
  - apply candidates_entered, last_Some_elem_of, Hlast.
  - apply last_None in Hlast. rewrite candidates_unfold, Hfull, Htoken in Hlast.
    discriminate.
Qed.

Lemma findClosestNode_token_span_witness :
  tokenSpanContains (findClosestNode sampleFile 1) 1 = true.
Proof.
  apply (findClosestNode_token_span sampleFile 1); reflexivity.
Defined.
